(** * Interoperability examples: the C++ bridge and the small C library

    A shallow embedding of

    - [cpp/MyCppClass.cpp]  (the wrapped C++ object),
    - [cpp/c_bridge.cpp]    (the [extern "C"] bridge over an opaque handle),
    - [c_lib/mylib.c]       (the free functions [add_numbers] and
                             [calculate_average]),

    and the properties stated about them.

    Conventions.  [int] and [int32_t] are 32-bit two's complement integers,
    carried as [Z] with the reduction into range written out ([CInt.wrap]).
    ISO C and C++ leave signed overflow undefined; the embedding fixes the
    two's complement result, and every statement below that carries an
    in-range hypothesis does not depend on that choice.  [double] is IEEE 754
    binary64 with round-to-nearest-even, taken from the Standard Library's
    executable specification ([SpecFloat], precision 53, [emax] 1024).
    The free store is counted in allocations; [std::string] and
    [std::vector] ask for them as the GNU C++ library does: a string of up
    to 15 characters and an empty vector own no buffer. *)

From Stdlib Require Import ZArith Lia List Permutation.
From Stdlib Require Import Floats.SpecFloat.
From stdpp Require Import gmap strings.

Local Open Scope Z_scope.

(** ** Machine integers *)

Module CInt.

Definition INT_MIN : Z := - 2 ^ 31.
Definition INT_MAX : Z := 2 ^ 31 - 1.

(** A value of type [int] / [int32_t]. *)
Definition in_range (z : Z) : Prop := INT_MIN <= z <= INT_MAX.

(** Reduction of a mathematical integer to its 32-bit two's complement
    representative. *)
Definition wrap (z : Z) : Z := (z + 2 ^ 31) mod 2 ^ 32 - 2 ^ 31.

(** [a + b] on [int] operands. *)
Definition add (a b : Z) : Z := wrap (a + b).

End CInt.

(** ** IEEE 754 binary64 *)

Module Double.

Definition prec : Z := 53.
Definition emax : Z := 1024.

Definition double : Type := spec_float.

(** The values a [double] variable can hold. *)
Definition valid (x : double) : bool := valid_binary prec emax x.

Definition zero : double := S754_zero false.          (* the literal 0.0 *)
Definition neg_zero : double := S754_zero true.
Definition nan : double := S754_nan.

Definition is_nan (x : double) : bool :=
  match x with S754_nan => true | _ => false end.

(** [x + y], [x / y] and [x == y] on doubles. *)
Definition add (x y : double) : double := SFadd prec emax x y.
Definition div (x y : double) : double := SFdiv prec emax x y.
Definition eqb (x y : double) : bool := SFeqb x y.

(** The conversion [(double)n] of an integer. *)
Definition of_Z (n : Z) : double := binary_normalize prec emax n 0 false.

(** [1.0], that is [2^52 * 2^-52]. *)
Definition one : double := S754_finite false 4503599627370496 (-52).

End Double.

Import Double.

(** ** [MyCppClass.cpp]: the wrapped object *)

Module MyCppClass.

Record t : Type := mk { value_ : Z; message_ : string }.

(** [MyCppClass::MyCppClass(int initial_value)] *)
Definition construct (initial_value : Z) : t :=
  {| value_ := initial_value; message_ := "Default message" |}.

(** [int getValue() const] *)
Definition getValue (this : t) : Z := value_ this.

(** [void setValue(int value)] *)
Definition setValue (value : Z) (this : t) : t :=
  {| value_ := value; message_ := message_ this |}.

(** [void increment()]: [value_++] *)
Definition increment (this : t) : t :=
  {| value_ := CInt.add (value_ this) 1; message_ := message_ this |}.

(** [std::string getMessage() const] *)
Definition getMessage (this : t) : string := message_ this.

(** [void setMessage(const std::string& msg)] *)
Definition setMessage (msg : string) (this : t) : t :=
  {| value_ := value_ this; message_ := msg |}.

(** [double calculateSum(const std::vector<double>& values) const]:
    [std::accumulate(values.begin(), values.end(), 0.0)], that is
    [acc = acc + *it] from left to right. *)
Definition calculateSum (values : list double) (this : t) : double :=
  fold_left Double.add values Double.zero.

(** [n] successive calls of [increment]. *)
Definition increment_n (n : nat) (this : t) : t := Nat.iter n increment this.

End MyCppClass.

(** ** [mylib.c]: the small C library *)

Module MyLib.

(** [int32_t add_numbers(int32_t a, int32_t b) { return a + b; }] *)
Definition add_numbers (a b : Z) : Z := CInt.add a b.

(** The loop [for (size_t i = 0; i < count; i++) sum += values[i];]
    with [remaining = count - i] iterations still to run.  [values] is
    the array behind the pointer; reading past its end is undefined
    ([None]). *)
Fixpoint sum_loop (values : list double) (i remaining : nat) (sum : double)
  : option double :=
  match remaining with
  | O => Some sum
  | S remaining' =>
      match values !! i with
      | Some v => sum_loop values (S i) remaining' (Double.add sum v)
      | None => None
      end
  end.

(** [double calculate_average(const double* values, size_t count)] *)
Definition calculate_average (values : list double) (count : N)
  : option double :=
  if (count =? 0)%N then Some Double.zero
  else
    match sum_loop values 0 (N.to_nat count) Double.zero with
    | Some sum => Some (Double.div sum (Double.of_Z (Z.of_N count)))
    | None => None
    end.

End MyLib.

(** ** The C++ runtime the bridge runs on

    Free store, exceptions and undefined behaviour, as far as
    [c_bridge.cpp] uses them. *)

Module Runtime.

(** Addresses; [0] is the null pointer. *)
Abbreviation ptr := N (only parsing).
Definition nullptr : ptr := 0%N.
Definition is_null (p : ptr) : bool := (p =? 0)%N.

(** [std::string] as the GNU C++ library lays it out: a text of up to
    [sso_capacity] characters is kept inside the string object itself, a
    longer one in a free-store buffer the string owns. *)
Definition sso_capacity : nat := 15.

Definition is_long (s : string) : bool := (sso_capacity <? String.length s)%nat.

(** The capacity of the buffer a string of capacity [cap] moves to when
    it has to hold [len > cap] characters. *)
Definition grow (cap len : nat) : nat :=
  if (len <? 2 * cap)%nat then (2 * cap)%nat else len.

(** What lives at an address: an object made by [new], whose [message_]
    is kept inside it ([NewObj]) or owns a buffer of the given capacity
    ([NewObjBuf]); a character buffer made by [malloc]; or storage owned
    by the caller (a NUL-terminated string, an array of doubles). *)
Inductive block : Type :=
| NewObj (o : MyCppClass.t)
| NewObjBuf (o : MyCppClass.t) (capacity : nat)
| MallocStr (s : string)
| ForeignStr (s : string)
| ForeignArr (a : list double).

(** [quota] is the number of further allocation requests the free store
    will grant; at [0], [new] throws [std::bad_alloc] and [malloc]
    returns null. *)
Record memory : Type := mkmem { heap : gmap N block; quota : nat }.

Inductive outcome (A : Type) : Type :=
| Ret (a : A) (m : memory)        (* normal return *)
| Throw (m : memory)              (* an exception propagates *)
| Undef.                          (* undefined behaviour *)
Arguments Ret {A} a m.
Arguments Throw {A} m.
Arguments Undef {A}.

Definition cxx (A : Type) : Type := memory -> outcome A.

Definition ret {A} (a : A) : cxx A := fun m => Ret a m.

Definition bind {A B} (c : cxx A) (k : A -> cxx B) : cxx B :=
  fun m =>
    match c m with
    | Ret a m' => k a m'
    | Throw m' => Throw m'
    | Undef => Undef
    end.

(** [try { body } catch (...) { handler }] *)
Definition try_catch {A} (body handler : cxx A) : cxx A :=
  fun m =>
    match body m with
    | Throw m' => handler m'
    | o => o
    end.

Definition fresh_ptr (m : memory) : ptr := fresh (dom (heap m) ∪ {[ nullptr ]}).

Definition alloc (b : block) (m : memory) : option (ptr * memory) :=
  match quota m with
  | O => None
  | S q => let p := fresh_ptr m in
           Some (p, {| heap := <[ p := b ]> (heap m); quota := q |})
  end.

Definition release (p : ptr) (m : memory) : memory :=
  {| heap := delete p (heap m); quota := S (quota m) |}.

(** [new MyCppClass(...)] once the constructor has produced [o]. *)
Definition operator_new (o : MyCppClass.t) : cxx ptr :=
  fun m =>
    match alloc (NewObj o) m with
    | Some (p, m') => Ret p m'
    | None => Throw m
    end.

(** [delete p] for a non-null [p]: the destructor gives back the buffer
    [message_] owns, if any, then the object itself is released. *)
Definition operator_delete (p : ptr) : cxx unit :=
  fun m =>
    match heap m !! p with
    | Some (NewObj _) => Ret tt (release p m)
    | Some (NewObjBuf _ _) =>
        Ret tt (release p {| heap := heap m; quota := S (quota m) |})
    | _ => Undef
    end.

(** [malloc(size)]; the fresh buffer's contents are unspecified. *)
Definition malloc (size : N) : cxx ptr :=
  fun m =>
    match alloc (MallocStr "") m with
    | Some (p, m') => Ret p m'
    | None => Ret nullptr m
    end.

(** [free(p)]: no action on a null pointer. *)
Definition free (p : ptr) : cxx unit :=
  fun m =>
    if is_null p then Ret tt m
    else
      match heap m !! p with
      | Some (MallocStr _) => Ret tt (release p m)
      | _ => Undef
      end.

(** A temporary that owns a free-store buffer for the duration of [k]
    (a long [std::string], a [std::vector]): its allocation may throw, and
    its destructor runs on normal exit and during unwinding. *)
Definition scoped {A} (k : cxx A) : cxx A :=
  fun m =>
    match quota m with
    | O => Throw m
    | S q =>
        match k {| heap := heap m; quota := q |} with
        | Ret a m' => Ret a {| heap := heap m'; quota := S (quota m') |}
        | Throw m' => Throw {| heap := heap m'; quota := S (quota m') |}
        | Undef => Undef
        end
    end.

(** A [std::string] temporary holding [s], alive for the duration of [k]:
    only a long text needs a buffer. *)
Definition with_string {A} (s : string) (k : cxx A) : cxx A :=
  if is_long s then scoped k else k.

(** A [std::vector<double>] temporary holding [elems], alive for the
    duration of [k]: an empty vector has no buffer. *)
Definition with_vector {A} (elems : list double) (k : cxx A) : cxx A :=
  match elems with
  | [] => k
  | _ :: _ => scoped k
  end.

(** The object a handle points at, if any. *)
Definition object_at (m : memory) (p : ptr) : option MyCppClass.t :=
  match heap m !! p with
  | Some (NewObj o) | Some (NewObjBuf o _) => Some o
  | _ => None
  end.

(** Member access through a [MyCppClass*]. *)
Definition load_obj (p : ptr) : cxx MyCppClass.t :=
  fun m =>
    match heap m !! p with
    | Some (NewObj o) | Some (NewObjBuf o _) => Ret o m
    | _ => Undef
    end.

(** Writing the [int] member back; [message_] and its buffer stay. *)
Definition store_obj (p : ptr) (o : MyCppClass.t) : cxx unit :=
  fun m =>
    match heap m !! p with
    | Some (NewObj _) => Ret tt {| heap := <[ p := NewObj o ]> (heap m); quota := quota m |}
    | Some (NewObjBuf _ c) =>
        Ret tt {| heap := <[ p := NewObjBuf o c ]> (heap m); quota := quota m |}
    | _ => Undef
    end.

(** [p->setMessage(msg)], that is [message_ = msg] on the object at [p].
    A text that fits the present capacity is copied in place.  Otherwise
    a larger buffer is allocated first, which may throw and then leaves
    the object as it was; the old buffer, if there was one, is given
    back. *)
Definition assign_message (p : ptr) (msg : string) : cxx unit :=
  fun m =>
    match heap m !! p with
    | Some (NewObj o) =>
        if (String.length msg <=? sso_capacity)%nat
        then Ret tt {| heap := <[ p := NewObj (MyCppClass.setMessage msg o) ]> (heap m);
                       quota := quota m |}
        else
          match quota m with
          | O => Throw m
          | S q =>
              Ret tt {| heap := <[ p := NewObjBuf (MyCppClass.setMessage msg o)
                                            (grow sso_capacity (String.length msg)) ]>
                                  (heap m);
                        quota := q |}
          end
    | Some (NewObjBuf o c) =>
        if (String.length msg <=? c)%nat
        then Ret tt {| heap := <[ p := NewObjBuf (MyCppClass.setMessage msg o) c ]> (heap m);
                       quota := quota m |}
        else
          match quota m with
          | O => Throw m
          | S q =>
              Ret tt {| heap := <[ p := NewObjBuf (MyCppClass.setMessage msg o)
                                            (grow c (String.length msg)) ]>
                                  (heap m);
                        quota := S q |}
          end
    | _ => Undef
    end.

(** The characters of [s] before its first NUL: what a [const char*]
    view of [s] denotes. *)
Fixpoint c_str (s : string) : string :=
  match s with
  | EmptyString => EmptyString
  | String c s' => if Ascii.eqb c Ascii.zero then EmptyString else String c (c_str s')
  end.

(** Reading the NUL-terminated string at [p]. *)
Definition load_cstr (p : ptr) : cxx string :=
  fun m =>
    match heap m !! p with
    | Some (MallocStr s) | Some (ForeignStr s) => Ret (c_str s) m
    | _ => Undef
    end.

(** [strcpy(dst, src)] into a buffer obtained from [malloc]. *)
Definition strcpy (dst : ptr) (src : string) : cxx unit :=
  fun m =>
    match heap m !! dst with
    | Some (MallocStr _) =>
        Ret tt {| heap := <[ dst := MallocStr (c_str src) ]> (heap m); quota := quota m |}
    | _ => Undef
    end.

(** Reading [values[0 .. count)]. *)
Definition load_range (values : ptr) (count : N) : cxx (list double) :=
  fun m =>
    match heap m !! values with
    | Some (ForeignArr a) =>
        if (count <=? N.of_nat (length a))%N then Ret (take (N.to_nat count) a) m
        else Undef
    | _ => Undef
    end.

End Runtime.

Import Runtime.

Notation "'do' x <- c ; k" := (bind c (fun x => k))
  (at level 10, x name, c at level 100, k at level 200).

(** ** [c_bridge.cpp]: the [extern "C"] functions *)

Definition MyCppClass_create (initial_value : Z) : cxx ptr :=
  try_catch
    (do obj <- operator_new (MyCppClass.construct initial_value);
     ret obj)
    (ret nullptr).

Definition MyCppClass_destroy (obj : ptr) : cxx unit :=
  if negb (is_null obj) then operator_delete obj else ret tt.

Definition MyCppClass_getValue (obj : ptr) : cxx Z :=
  if is_null obj then ret 0
  else
    try_catch
      (do this <- load_obj obj;
       ret (MyCppClass.getValue this))
      (ret 0).

Definition MyCppClass_setValue (obj : ptr) (value : Z) : cxx unit :=
  if is_null obj then ret tt
  else
    try_catch
      (do this <- load_obj obj;
       store_obj obj (MyCppClass.setValue value this))
      (ret tt).

Definition MyCppClass_increment (obj : ptr) : cxx unit :=
  if is_null obj then ret tt
  else
    try_catch
      (do this <- load_obj obj;
       store_obj obj (MyCppClass.increment this))
      (ret tt).

Definition MyCppClass_getMessage (obj : ptr) : cxx ptr :=
  if is_null obj then ret nullptr
  else
    try_catch
      (do this <- load_obj obj;
       let msg := MyCppClass.getMessage this in
       with_string msg                      (* std::string msg *)
         (do result <- malloc (N.of_nat (String.length msg) + 1);
          if negb (is_null result)
          then (do _u <- strcpy result msg; ret result)
          else ret result))
      (ret nullptr).

Definition MyCppClass_setMessage (obj message : ptr) : cxx unit :=
  if is_null obj || is_null message then ret tt
  else
    try_catch
      (do text <- load_cstr message;
       with_string text                     (* the std::string temporary *)
         (assign_message obj text))
      (ret tt).

Definition MyCppClass_freeString (str : ptr) : cxx unit := free str.

Definition MyCppClass_calculateSum (obj values : ptr) (count : N) : cxx double :=
  if is_null obj || is_null values then ret Double.zero
  else
    try_catch
      (do elems <- load_range values count;
       with_vector elems                    (* std::vector<double> vec *)
         (do this <- load_obj obj;
          ret (MyCppClass.calculateSum elems this)))
      (ret Double.zero).

(** ** Frames

    [m'] differs from [m] at most in the block at [obj]. *)
Definition untouched_but (obj : ptr) (m m' : memory) : Prop :=
  quota m' = quota m /\ forall p, p <> obj -> heap m' !! p = heap m !! p.

(** ** What [MyCppClass_getMessage] asks of the free store

    One allocation for the [malloc] buffer, and one more for the
    [std::string] copy when the message is longer than [sso_capacity]. *)
Definition getMessage_demand (o : MyCppClass.t) : nat :=
  if is_long (MyCppClass.getMessage o) then 2%nat else 1%nat.

(** ** Sample states for the concrete runs *)

Module Sample.

(** No block in use, [q] allocations left. *)
Definition empty (q : nat) : memory := {| heap := ∅; quota := q |}.

(** A text longer than [sso_capacity]. *)
Definition long_text : string := "a message of more than 15 characters".

(** An object holding [7] at address 1, the caller's string ["hello"] at
    address 2 and the caller's doubles [1.0; 2.0; 3.0] at address 3, with
    [q] allocations left. *)
Definition store (q : nat) : memory :=
  {| heap := {[ 1%N := NewObj (MyCppClass.construct 7);
                2%N := ForeignStr "hello";
                3%N := ForeignArr [Double.of_Z 1; Double.of_Z 2; Double.of_Z 3] ]};
     quota := q |}.

(** The same with a long string at address 2. *)
Definition long_store (q : nat) : memory :=
  {| heap := {[ 1%N := NewObj (MyCppClass.construct 7);
                2%N := ForeignStr long_text ]};
     quota := q |}.

(** An object whose message is [long_text], in a buffer of its own. *)
Definition buffered_store (q : nat) : memory :=
  {| heap := {[ 1%N := NewObjBuf (MyCppClass.setMessage long_text (MyCppClass.construct 7)) 36;
                2%N := ForeignStr "hello" ]};
     quota := q |}.

End Sample.

(** * Properties *)

(** ** Machine integers *)

Lemma int_bounds : CInt.INT_MIN = -2147483648 /\ CInt.INT_MAX = 2147483647.
Proof. split; reflexivity. Qed.

Lemma wrap_in_range z : CInt.in_range z -> CInt.wrap z = z.
Proof.
  unfold CInt.in_range, CInt.wrap. rewrite (proj1 int_bounds), (proj2 int_bounds).
  intros H. rewrite Z.mod_small; lia.
Qed.

Lemma wrap_range z : CInt.in_range (CInt.wrap z).
Proof.
  unfold CInt.in_range, CInt.wrap. rewrite (proj1 int_bounds), (proj2 int_bounds).
  pose proof (Z.mod_pos_bound (z + 2 ^ 31) (2 ^ 32) ltac:(lia)). lia.
Qed.

(** [wrap z] differs from [z] by a multiple of [2^32]. *)
Lemma wrap_congruent z : exists k, CInt.wrap z = z + k * 2 ^ 32.
Proof.
  exists (- ((z + 2 ^ 31) / 2 ^ 32)). unfold CInt.wrap.
  rewrite Z.mod_eq by lia. lia.
Qed.

(** Reducing an intermediate result does not change the reduced sum. *)
Lemma wrap_add_l a b : CInt.wrap (CInt.wrap a + b) = CInt.wrap (a + b).
Proof.
  destruct (wrap_congruent a) as [k ->]. unfold CInt.wrap.
  replace (a + k * 2 ^ 32 + b + 2 ^ 31) with (a + b + 2 ^ 31 + k * 2 ^ 32) by lia.
  now rewrite Z.mod_add by lia.
Qed.

(** ** The wrapped object *)

(** [increment] on an object whose value is below [INT_MAX] adds one. *)
Lemma increment_below_max (o : MyCppClass.t) :
  CInt.in_range (MyCppClass.value_ o) ->
  MyCppClass.value_ o < CInt.INT_MAX ->
  MyCppClass.getValue (MyCppClass.increment o) = MyCppClass.getValue o + 1.
Proof.
  intros [Hlo Hhi] Hlt. unfold MyCppClass.getValue, MyCppClass.increment, CInt.add.
  cbn [MyCppClass.value_]. apply wrap_in_range. split; lia.
Qed.

Lemma increment_n_succ n o :
  MyCppClass.increment_n (S n) o = MyCppClass.increment (MyCppClass.increment_n n o).
Proof. reflexivity. Qed.

(** [increment] always leaves an [int] in [value_]. *)
Lemma increment_in_range o : CInt.in_range (MyCppClass.value_ (MyCppClass.increment o)).
Proof. apply wrap_range. Qed.

(** X19. After [n >= 1] calls of [increment] the stored value is the old
    value plus [n], reduced to 32-bit two's complement: overflow included. *)
Lemma increment_n_wraps o n :
  MyCppClass.value_ (MyCppClass.increment_n (S n) o)
  = CInt.wrap (MyCppClass.value_ o + Z.of_nat (S n)).
Proof.
  induction n as [| n IH].
  - reflexivity.
  - rewrite increment_n_succ. unfold MyCppClass.increment at 1.
    cbn [MyCppClass.value_]. rewrite IH. unfold CInt.add.
    rewrite wrap_add_l. f_equal. lia.
Qed.

(** C2. An object constructed with initial value [v] reports [v]; and
    when the bridge's [MyCppClass_create(v)] returns a non-null handle,
    [MyCppClass_getValue] on that handle returns [v] (and leaves memory as
    it is).  [create] does return a non-null handle whenever the
    allocation is granted. *)
Theorem create_getValue (v : Z) :
  MyCppClass.getValue (MyCppClass.construct v) = v
  /\ (forall m h m',
        MyCppClass_create v m = Ret h m' -> h <> nullptr ->
        MyCppClass_getValue h m' = Ret v m')
  /\ (forall m, quota m <> O ->
        exists h m', MyCppClass_create v m = Ret h m' /\ h <> nullptr).
Proof.
  assert (Hfresh : forall m, fresh_ptr m <> nullptr).
  { intros m E. unfold fresh_ptr in E.
    match type of E with fresh ?X = _ => pose proof (is_fresh X) as Hf end.
    rewrite E in Hf. set_solver. }
  split; [reflexivity | split].
  - intros m h m'.
    unfold MyCppClass_create, try_catch, bind, operator_new, alloc, ret.
    destruct (quota m) as [| q]; intros Hc Hh.
    + inversion Hc; subst. congruence.
    + inversion Hc; subst. clear Hc.
      unfold MyCppClass_getValue.
      destruct (is_null (fresh_ptr m)) eqn:En.
      { apply N.eqb_eq in En. contradiction. }
      unfold try_catch, bind, load_obj, ret. cbn [heap].
      rewrite lookup_insert_eq. reflexivity.
  - intros m Hq.
    unfold MyCppClass_create, try_catch, bind, operator_new, alloc, ret.
    destruct (quota m) as [| q]; [congruence |].
    eexists _, _. split; [reflexivity | apply Hfresh].
Qed.

(** C3. A freshly constructed object's message is ["Default message"]. *)
Theorem construct_default_message (v : Z) :
  MyCppClass.getMessage (MyCppClass.construct v) = "Default message".
Proof. reflexivity. Qed.

(** C4 (as amended). For an object whose value [x] is an [int] and every
    [n] with [x + n <= INT_MAX], [n] calls of [increment] increase
    [getValue()] by exactly [n]. *)
Theorem increment_n_adds (o : MyCppClass.t) (n : nat) :
  CInt.in_range (MyCppClass.value_ o) ->
  MyCppClass.value_ o + Z.of_nat n <= CInt.INT_MAX ->
  MyCppClass.getValue (MyCppClass.increment_n n o)
  = MyCppClass.getValue o + Z.of_nat n.
Proof.
  intros Hr. induction n as [| n IH]; intros Hn.
  - cbn. unfold MyCppClass.getValue. lia.
  - rewrite increment_n_succ.
    assert (Hn' : MyCppClass.value_ o + Z.of_nat n <= CInt.INT_MAX) by lia.
    specialize (IH Hn').
    rewrite increment_below_max.
    + rewrite IH. lia.
    + unfold MyCppClass.getValue in IH. rewrite IH.
      destruct Hr as [Hlo Hhi]. split; lia.
    + unfold MyCppClass.getValue in IH. rewrite IH. lia.
Qed.

(** C5. [setMessage(t)] followed by [getMessage()] returns [t], for every
    object and every text, the empty one included. *)
Theorem setMessage_getMessage (o : MyCppClass.t) (t : string) :
  MyCppClass.getMessage (MyCppClass.setMessage t o) = t
  /\ MyCppClass.getMessage (MyCppClass.setMessage "" o) = "".
Proof. split; reflexivity. Qed.

(** C9. [setValue] and [increment] leave the message as it is, and
    [setMessage] leaves the value as it is. *)
Theorem mutators_frame (o : MyCppClass.t) (v : Z) (t : string) :
  MyCppClass.getMessage (MyCppClass.setValue v o) = MyCppClass.getMessage o
  /\ MyCppClass.getMessage (MyCppClass.increment o) = MyCppClass.getMessage o
  /\ MyCppClass.getValue (MyCppClass.setMessage t o) = MyCppClass.getValue o.
Proof. repeat split. Qed.

(** ** The bridge on null pointers *)

(** C1. On a null handle [destroy], [setValue], [increment] and
    [setMessage] return normally and leave memory untouched, [getValue]
    returns [0], [getMessage] returns null, and [calculateSum] returns
    [0.0] when the handle or the values pointer is null; none of them
    throws or runs into undefined behaviour. *)
Theorem null_handle_sentinels (m : memory) (v : Z) (message values obj : ptr) (count : N) :
  MyCppClass_destroy nullptr m = Ret tt m
  /\ MyCppClass_getValue nullptr m = Ret 0 m
  /\ MyCppClass_getMessage nullptr m = Ret nullptr m
  /\ MyCppClass_setValue nullptr v m = Ret tt m
  /\ MyCppClass_increment nullptr m = Ret tt m
  /\ MyCppClass_setMessage nullptr message m = Ret tt m
  /\ MyCppClass_calculateSum nullptr values count m = Ret Double.zero m
  /\ MyCppClass_calculateSum obj nullptr count m = Ret Double.zero m.
Proof.
  repeat split.
  unfold MyCppClass_calculateSum. destruct (is_null obj); reflexivity.
Qed.

(** C10. [MyCppClass_freeString] on a null pointer returns normally and
    leaves memory untouched; in particular whenever [MyCppClass_getMessage]
    returns null, handing that result to [MyCppClass_freeString] does
    nothing. *)
Theorem freeString_null (m : memory) :
  MyCppClass_freeString nullptr m = Ret tt m
  /\ (forall obj p m',
        MyCppClass_getMessage obj m = Ret p m' -> p = nullptr ->
        MyCppClass_freeString p m' = Ret tt m').
Proof.
  split; [reflexivity |]. intros obj p m' _ ->. reflexivity.
Qed.

(** ** The bridge on live and on dangling handles *)

Lemma is_null_false p : p <> nullptr -> is_null p = false.
Proof. intros Hp. now apply N.eqb_neq. Qed.

(** A handle is live when an object, of either layout, is at its address. *)
Lemma object_at_NewObj m p o :
  heap m !! p = Some (NewObj o) -> object_at m p = Some o.
Proof. unfold object_at. now intros ->. Qed.

Lemma object_at_inv m p o :
  object_at m p = Some o ->
  heap m !! p = Some (NewObj o) \/ exists c, heap m !! p = Some (NewObjBuf o c).
Proof.
  unfold object_at. destruct (heap m !! p) as [[] |]; intros H; inversion H; subst; eauto.
Qed.

Section LiveHandle.

Variables (m : memory) (obj : ptr) (o : MyCppClass.t).
Hypothesis Hnn : obj <> nullptr.
Hypothesis Hobj : object_at m obj = Some o.

Lemma load_obj_live : load_obj obj m = Ret o m.
Proof.
  unfold load_obj. destruct (object_at_inv _ _ _ Hobj) as [H | [c H]]; now rewrite H.
Qed.

Lemma getValue_live : MyCppClass_getValue obj m = Ret (MyCppClass.getValue o) m.
Proof.
  unfold MyCppClass_getValue. rewrite (is_null_false _ Hnn).
  unfold try_catch, bind, ret. now rewrite load_obj_live.
Qed.

(** [setValue] and [increment] replace the object and nothing else. *)
Lemma store_obj_live o' :
  exists m', store_obj obj o' m = Ret tt m'
             /\ object_at m' obj = Some o'
             /\ quota m' = quota m
             /\ forall p, p <> obj -> heap m' !! p = heap m !! p.
Proof.
  unfold store_obj.
  destruct (object_at_inv _ _ _ Hobj) as [H | [c H]]; rewrite H;
    (eexists; split; [reflexivity |]); unfold object_at; cbn [heap quota];
    rewrite lookup_insert_eq; (split; [reflexivity |]); (split; [reflexivity |]);
    intros p Hp; now apply lookup_insert_ne.
Qed.

Lemma setValue_live v :
  exists m', MyCppClass_setValue obj v m = Ret tt m'
             /\ object_at m' obj = Some (MyCppClass.setValue v o).
Proof.
  destruct (store_obj_live (MyCppClass.setValue v o)) as (m' & Hs & Ho & _).
  exists m'. split; [| exact Ho].
  unfold MyCppClass_setValue. rewrite (is_null_false _ Hnn).
  unfold try_catch, bind. now rewrite load_obj_live, Hs.
Qed.

Lemma increment_live :
  exists m', MyCppClass_increment obj m = Ret tt m'
             /\ object_at m' obj = Some (MyCppClass.increment o).
Proof.
  destruct (store_obj_live (MyCppClass.increment o)) as (m' & Hs & Ho & _).
  exists m'. split; [| exact Ho].
  unfold MyCppClass_increment. rewrite (is_null_false _ Hnn).
  unfold try_catch, bind. now rewrite load_obj_live, Hs.
Qed.

End LiveHandle.

(** A handle that was destroyed, or never created, must not be used. *)
Lemma getValue_dangling m obj :
  obj <> nullptr -> heap m !! obj = None -> MyCppClass_getValue obj m = Undef.
Proof.
  intros Hnn Hobj. unfold MyCppClass_getValue. rewrite (is_null_false _ Hnn).
  unfold try_catch, bind, load_obj. now rewrite Hobj.
Qed.

(** ** The C library: [add_numbers] *)

(** C8 (as amended). [add_numbers] returns an [int32_t] for every pair of
    [int32_t] arguments; the result is [a + b] whenever [a + b] fits in 32
    bits and differs from it by a multiple of [2^32] otherwise; it is
    commutative and has [0] as identity. *)
Theorem add_numbers_spec (a b : Z) :
  CInt.in_range a -> CInt.in_range b ->
  CInt.in_range (MyLib.add_numbers a b)
  /\ (CInt.in_range (a + b) -> MyLib.add_numbers a b = a + b)
  /\ (exists k, MyLib.add_numbers a b = a + b + k * 2 ^ 32)
  /\ MyLib.add_numbers a b = MyLib.add_numbers b a
  /\ MyLib.add_numbers a 0 = a.
Proof.
  intros Ha Hb. unfold MyLib.add_numbers, CInt.add. repeat split.
  - apply wrap_range.
  - apply wrap_range.
  - apply wrap_in_range.
  - apply wrap_congruent.
  - now rewrite Z.add_comm.
  - rewrite Z.add_0_r. now apply wrap_in_range.
Qed.

(** ** Doubles *)

Lemma fexp_binary64 x : fexp prec emax x = Z.max (x - 53) (-1074).
Proof. reflexivity. Qed.

Lemma of_Z_1 : Double.of_Z 1 = Double.one.
Proof. reflexivity. Qed.

Lemma div_eucl_mul a b : 0 < b -> Z.div_eucl (a * b) b = (a, 0).
Proof.
  intros Hb.
  generalize (Z.div_mul a b ltac:(lia)) (Z.mod_mul a b ltac:(lia)).
  unfold Z.div, Z.modulo. destruct (Z.div_eucl (a * b) b) as [q r]. cbn.
  intros -> ->. reflexivity.
Qed.

(** Facts about one finite double [m * 2^e]. *)
Section Finite.

Variables (m : positive) (e : Z).
Hypothesis Hb : bounded prec emax m e = true.

(** A finite double is canonical: its exponent is the one its magnitude
    calls for, and it is at most [emax - prec]. *)
Lemma bounded_inv :
  Z.max (Zpos (digits2_pos m) + e - 53) (-1074) = e /\ e <= 971.
Proof.
  revert Hb. unfold bounded, canonical_mantissa. rewrite fexp_binary64.
  intros H. apply andb_prop in H. destruct H as [H1 H2].
  apply Z.eqb_eq in H1. apply Z.leb_le in H2.
  change (emax - prec) with 971 in H2. lia.
Qed.

(** Rounding a canonical mantissa changes nothing. *)
Lemma round_aux_canonical sx :
  binary_round_aux prec emax sx (Zpos m) e loc_Exact = S754_finite sx m e.
Proof.
  destruct bounded_inv as [Hc He].
  unfold binary_round_aux, shr_fexp.
  cbn [shr_record_of_loc Zdigits2].
  rewrite fexp_binary64.
  replace (Z.max (Zpos (digits2_pos m) + e - 53) (-1074) - e) with 0 by lia.
  cbn [shr shr_m loc_of_shr_record round_nearest_even shr_record_of_loc Zdigits2].
  rewrite fexp_binary64.
  replace (Z.max (Zpos (digits2_pos m) + e - 53) (-1074) - e) with 0 by lia.
  cbn [shr shr_m].
  change (emax - prec) with 971.
  destruct (Z.leb_spec e 971); [reflexivity | lia].
Qed.

(** Rounding [2m * 2^(e-1)] gives back [m * 2^e] when [e] is above the
    smallest exponent. *)
Lemma round_aux_shifted sx :
  -1074 < e ->
  binary_round_aux prec emax sx (Zpos m~0) (e - 1) loc_Exact = S754_finite sx m e.
Proof.
  intros Hlt. destruct bounded_inv as [Hc He].
  unfold binary_round_aux, shr_fexp.
  cbn [shr_record_of_loc Zdigits2 digits2_pos].
  rewrite fexp_binary64, Pos2Z.inj_succ.
  replace (Z.max (Z.succ (Zpos (digits2_pos m)) + (e - 1) - 53) (-1074) - (e - 1))
    with 1 by lia.
  cbn [shr SpecFloat.iter_pos shr_1 shr_m loc_of_shr_record round_nearest_even
       shr_record_of_loc Zdigits2 orb].
  replace (e - 1 + 1) with e by lia.
  rewrite fexp_binary64.
  replace (Z.max (Zpos (digits2_pos m) + e - 53) (-1074) - e) with 0 by lia.
  cbn [shr shr_m].
  change (emax - prec) with 971.
  destruct (Z.leb_spec e 971); [reflexivity | lia].
Qed.

(** Division by [1.0]: the quotient of the mantissas is exact, [m] at
    exponent [e] for the smallest exponent and [2m] at exponent [e - 1]
    otherwise, and rounding restores [m * 2^e]. *)
Lemma div_one_finite s :
  Double.div (S754_finite s m e) Double.one = S754_finite s m e.
Proof.
  destruct bounded_inv as [Hc He].
  unfold Double.div, Double.one, SFdiv, SFdiv_core_binary.
  change (Zdigits2 (Zpos 4503599627370496)) with 53.
  cbn [Zdigits2]. rewrite fexp_binary64.
  replace (xorb s false) with s by (destruct s; reflexivity).
  destruct (Z.eq_dec e (-1074)) as [E | E].
  - replace (Z.min _ _) with e by lia.
    replace (e - -52 - e) with 52 by lia.
    rewrite Z.shiftl_mul_pow2 by lia.
    rewrite div_eucl_mul by lia.
    change (new_location (Zpos 4503599627370496) 0) with loc_Exact.
    apply round_aux_canonical.
  - replace (Z.min _ _) with (e - 1) by lia.
    replace (e - -52 - (e - 1)) with 53 by lia.
    rewrite Z.shiftl_mul_pow2 by lia.
    replace (Zpos m * 2 ^ 53) with (Zpos m~0 * 2 ^ 52)
      by (rewrite (Pos2Z.inj_xO m); lia).
    rewrite div_eucl_mul by lia.
    change (new_location (Zpos 4503599627370496) 0) with loc_Exact.
    apply round_aux_shifted. lia.
Qed.

End Finite.

(** [x / 1.0] is [x], for every double. *)
Lemma div_one x : Double.valid x = true -> Double.div x Double.one = x.
Proof.
  destruct x as [[] | [] | | s m e]; try reflexivity.
  intros Hb. now apply div_one_finite.
Qed.

(** [0.0 + x] is [x], except that [0.0 + -0.0] is [+0.0]. *)
Lemma add_zero_l x :
  Double.add Double.zero x = match x with S754_zero _ => Double.zero | _ => x end.
Proof. destruct x as [[] | [] | | s m e]; reflexivity. Qed.

Lemma add_comm x y : Double.add x y = Double.add y x.
Proof.
  destruct x as [[] | [] | | sx mx ex], y as [[] | [] | | sy my ey];
    try reflexivity.
  unfold Double.add, SFadd. now rewrite Z.min_comm, Z.add_comm.
Qed.

(** [x == x] holds for every double but NaN. *)
Lemma eqb_refl x : Double.is_nan x = false -> Double.eqb x x = true.
Proof.
  destruct x as [[] | [] | | s m e]; try reflexivity; try discriminate.
  intros _. unfold Double.eqb, SFeqb, SFcompare.
  rewrite Z.compare_refl, Pos.compare_cont_refl. destruct s; reflexivity.
Qed.

(** [+0.0 == -0.0]. *)
Lemma eqb_zeros s s' : Double.eqb (S754_zero s) (S754_zero s') = true.
Proof. reflexivity. Qed.

(** Accumulating two values from [0.0] does not depend on their order. *)
Lemma add_pair_swap a b :
  Double.add (Double.add Double.zero a) b = Double.add (Double.add Double.zero b) a.
Proof.
  rewrite !add_zero_l.
  destruct a as [[] | [] | | sa ma ea], b as [[] | [] | | sb mb eb];
    try reflexivity.
  apply add_comm.
Qed.


(** ** [calculateSum] *)

Lemma calculateSum_app o A B :
  MyCppClass.calculateSum (A ++ B) o
  = fold_left Double.add B (MyCppClass.calculateSum A o).
Proof. unfold MyCppClass.calculateSum. apply fold_left_app. Qed.

Lemma calculateSum_singleton o a :
  MyCppClass.calculateSum [a] o = Double.add Double.zero a.
Proof. reflexivity. Qed.

(** C6 (as amended). [calculateSum] is the left-to-right fold of double
    addition from [0.0]: the sum of the empty sequence is [0.0]; the sum
    of [[a]] compares equal to [a] for every [a] other than NaN, and is
    the very same double unless [a] is [-0.0]; the sum of [A ++ B] is the
    accumulation of [B]'s elements onto the sum of [A], which is
    [sum A + sum B] when [B] is a single element other than [-0.0]. *)
Theorem calculateSum_left_fold (o : MyCppClass.t) (a : double) (A B : list double) :
  MyCppClass.calculateSum [] o = Double.zero
  /\ (Double.is_nan a = false ->
      Double.eqb (MyCppClass.calculateSum [a] o) a = true)
  /\ (a <> Double.neg_zero -> MyCppClass.calculateSum [a] o = a)
  /\ MyCppClass.calculateSum (A ++ B) o
     = fold_left Double.add B (MyCppClass.calculateSum A o)
  /\ (a <> Double.neg_zero ->
      MyCppClass.calculateSum (A ++ [a]) o
      = Double.add (MyCppClass.calculateSum A o) (MyCppClass.calculateSum [a] o)).
Proof.
  assert (Hone : a <> Double.neg_zero -> MyCppClass.calculateSum [a] o = a).
  { intros Ha. rewrite calculateSum_singleton, add_zero_l.
    destruct a as [[] | | |]; try reflexivity. now elim Ha. }
  split; [reflexivity |]. split; [| split; [exact Hone | split]].
  - intros Hn. rewrite calculateSum_singleton, add_zero_l.
    destruct a as [s | s | | s m e].
    + apply eqb_zeros.
    + now apply eqb_refl.
    + discriminate.
    + now apply eqb_refl.
  - apply calculateSum_app.
  - intros Ha. rewrite calculateSum_app, (Hone Ha). reflexivity.
Qed.

(** X17. Through the bridge: with a live object and [count] readable doubles
    behind [values], [MyCppClass_calculateSum] is [calculateSum] on those
    elements, unless the vector's allocation fails, which yields [0.0]. *)
Lemma MyCppClass_calculateSum_live m obj values count o a :
  obj <> nullptr -> values <> nullptr ->
  object_at m obj = Some o ->
  heap m !! values = Some (ForeignArr a) ->
  (count <= N.of_nat (length a))%N ->
  MyCppClass_calculateSum obj values count m
  = Ret (if quota m is O then Double.zero
         else MyCppClass.calculateSum (take (N.to_nat count) a) o) m.
Proof.
  intros Ho Hv Hobj Harr Hc. unfold MyCppClass_calculateSum.
  destruct (is_null obj) eqn:E1; [apply N.eqb_eq in E1; contradiction |].
  destruct (is_null values) eqn:E2; [apply N.eqb_eq in E2; contradiction |].
  cbn [orb]. unfold try_catch, bind at 1. unfold load_range.
  rewrite Harr. apply N.leb_le in Hc. rewrite Hc.
  unfold with_vector, scoped, bind, ret.
  destruct (take (N.to_nat count) a) as [| x l].
  - rewrite (load_obj_live m obj o Hobj). now destruct (quota m).
  - destruct m as [h [| q]]; cbn [quota heap] in *; [reflexivity |].
    now rewrite (load_obj_live {| heap := h; quota := q |} obj o Hobj).
Qed.

(** ** [calculate_average] *)

Lemma sum_loop_app pre l sum :
  MyLib.sum_loop (pre ++ l) (length pre) (length l) sum
  = Some (fold_left Double.add l sum).
Proof.
  revert pre sum. induction l as [| v l IH]; intros pre sum; [reflexivity |].
  cbn [MyLib.sum_loop length fold_left].
  rewrite list_lookup_middle by reflexivity.
  replace (pre ++ v :: l) with ((pre ++ [v]) ++ l) by now rewrite <- app_assoc.
  replace (S (length pre)) with (length (pre ++ [v]))
    by (rewrite length_app; cbn; lia).
  apply IH.
Qed.

(** With [count] the length of the array, [calculate_average] is the
    left-to-right sum divided by [(double)count]. *)
Lemma calculate_average_full values count :
  count = N.of_nat (length values) -> count <> 0%N ->
  MyLib.calculate_average values count
  = Some (Double.div (fold_left Double.add values Double.zero)
                     (Double.of_Z (Z.of_N count))).
Proof.
  intros -> Hc. unfold MyLib.calculate_average.
  destruct (N.eqb_spec (N.of_nat (length values)) 0); [contradiction |].
  rewrite Nat2N.id. now rewrite (sum_loop_app [] values).
Qed.

(** X18. [calculate_average] does not check [count] against the array:
    with fewer than [count] elements behind [values] the loop reads past
    the end, which is undefined. *)
Lemma calculate_average_overrun values count :
  (N.of_nat (length values) < count)%N ->
  MyLib.calculate_average values count = None.
Proof.
  intros Hlt. unfold MyLib.calculate_average.
  destruct (N.eqb_spec count 0); [lia |].
  assert (Hn : (length values < N.to_nat count)%nat) by lia.
  assert (G : forall k i sum,
             (i <= length values)%nat -> (length values < i + k)%nat ->
             MyLib.sum_loop values i k sum = None).
  { induction k as [| k IH]; intros i sum Hi Hk; cbn [MyLib.sum_loop]; [lia |].
    destruct (values !! i) eqn:E; [| reflexivity].
    apply lookup_lt_Some in E. apply IH; lia. }
  rewrite (G (N.to_nat count) 0%nat Double.zero); [reflexivity | lia | lia].
Qed.

Lemma calculate_average_one x :
  MyLib.calculate_average [x] 1
  = Some (Double.div (Double.add Double.zero x) Double.one).
Proof. reflexivity. Qed.

Lemma calculate_average_two a b :
  MyLib.calculate_average [a; b] 2
  = Some (Double.div (Double.add (Double.add Double.zero a) b) (Double.of_Z 2)).
Proof. reflexivity. Qed.

(** C7 (as amended). [calculate_average] returns [0.0] when [count] is
    [0]; for the one-element sequence [[x]] it returns a double that
    compares equal to [x] for every [x] other than NaN (the very same
    double unless [x] is [-0.0]); and for [count <= 2] its result is
    unchanged under any reordering of the [count] input values. *)
Theorem calculate_average_spec (values values' : list double) (x : double) (count : N) :
  MyLib.calculate_average values 0 = Some Double.zero
  /\ (Double.valid x = true -> Double.is_nan x = false ->
      exists r, MyLib.calculate_average [x] 1 = Some r /\ Double.eqb r x = true)
  /\ (Double.valid x = true -> x <> Double.neg_zero ->
      MyLib.calculate_average [x] 1 = Some x)
  /\ (Permutation values values' ->
      count = N.of_nat (length values) -> (count <= 2)%N ->
      MyLib.calculate_average values count = MyLib.calculate_average values' count).
Proof.
  split; [reflexivity |]. split; [| split].
  - intros Hv Hn. rewrite calculate_average_one, add_zero_l.
    eexists. split; [reflexivity |].
    destruct x as [s | s | | s m e].
    + apply eqb_zeros.
    + rewrite div_one by reflexivity. now apply eqb_refl.
    + discriminate.
    + rewrite div_one by exact Hv. now apply eqb_refl.
  - intros Hv Hz. rewrite calculate_average_one, add_zero_l.
    destruct x as [[] | s | | s m e]; [now elim Hz | now rewrite div_one ..].
  - intros Hp -> Hc.
    destruct values as [| a [| b [| c l]]].
    + apply Permutation_nil in Hp. now subst.
    + apply Permutation_length_1_inv in Hp. now subst.
    + apply Permutation_length_2_inv in Hp. destruct Hp as [-> | ->].
      * reflexivity.
      * change (N.of_nat (length [a; b])) with 2%N.
        rewrite !calculate_average_two. now rewrite add_pair_swap.
    + cbn [length] in Hc. lia.
Qed.

(** * Concrete runs *)

(** C4, as first stated, fails at [INT_MAX]: one [increment] of an object
    holding [2147483647] leaves [-2147483648], not [2147483648]. *)
Lemma increment_overflow_counterexample :
  CInt.in_range (MyCppClass.getValue (MyCppClass.construct 2147483647))
  /\ MyCppClass.getValue (MyCppClass.increment_n 1 (MyCppClass.construct 2147483647))
     = -2147483648
  /\ MyCppClass.getValue (MyCppClass.increment_n 1 (MyCppClass.construct 2147483647))
     <> MyCppClass.getValue (MyCppClass.construct 2147483647) + Z.of_nat 1.
Proof.
  split; [| split].
  - split; discriminate.
  - reflexivity.
  - discriminate.
Qed.

(** C8, as first stated, fails on overflow: [add_numbers(2147483647, 1)]
    is [-2147483648], not [2147483648]. *)
Lemma add_numbers_overflow_counterexample :
  CInt.in_range 2147483647 /\ CInt.in_range 1
  /\ MyLib.add_numbers 2147483647 1 = -2147483648
  /\ MyLib.add_numbers 2147483647 1 <> 2147483647 + 1.
Proof.
  repeat split; try discriminate.
Qed.

(** C6, as first stated, fails: with [A = [2^53]] and [B = [1.0; 1.0]]
    the sum of [A ++ B] is [2^53] (each [+ 1.0] is rounded away) while
    [sum A + sum B] is [2^53 + 2]; and the sum of [[NaN]] does not compare
    equal to NaN. *)
Lemma calculateSum_concat_counterexample :
  MyCppClass.calculateSum
    ([Double.of_Z 9007199254740992] ++ [Double.of_Z 1; Double.of_Z 1])
    (MyCppClass.construct 0)
  = Double.of_Z 9007199254740992
  /\ Double.add
       (MyCppClass.calculateSum [Double.of_Z 9007199254740992] (MyCppClass.construct 0))
       (MyCppClass.calculateSum [Double.of_Z 1; Double.of_Z 1] (MyCppClass.construct 0))
     = Double.of_Z 9007199254740994
  /\ Double.eqb
       (MyCppClass.calculateSum
          ([Double.of_Z 9007199254740992] ++ [Double.of_Z 1; Double.of_Z 1])
          (MyCppClass.construct 0))
       (Double.add
          (MyCppClass.calculateSum [Double.of_Z 9007199254740992] (MyCppClass.construct 0))
          (MyCppClass.calculateSum [Double.of_Z 1; Double.of_Z 1] (MyCppClass.construct 0)))
     = false
  /\ Double.eqb (MyCppClass.calculateSum [Double.nan] (MyCppClass.construct 0)) Double.nan
     = false.
Proof. repeat split. Qed.

(** C7, as first stated, fails: [[2^53; 1.0; 1.0]] and [[1.0; 1.0; 2^53]]
    are reorderings of each other with [count = 3], and their averages are
    [3002399751580330.5] and [3002399751580331.5]; and the average of
    [[NaN]] does not compare equal to NaN. *)
Lemma calculate_average_order_counterexample :
  Permutation [Double.of_Z 9007199254740992; Double.of_Z 1; Double.of_Z 1]
              [Double.of_Z 1; Double.of_Z 1; Double.of_Z 9007199254740992]
  /\ MyLib.calculate_average
       [Double.of_Z 9007199254740992; Double.of_Z 1; Double.of_Z 1] 3
     = Some (S754_finite false 6004799503160661 (-1))
  /\ MyLib.calculate_average
       [Double.of_Z 1; Double.of_Z 1; Double.of_Z 9007199254740992] 3
     = Some (S754_finite false 6004799503160663 (-1))
  /\ MyLib.calculate_average
       [Double.of_Z 9007199254740992; Double.of_Z 1; Double.of_Z 1] 3
     <> MyLib.calculate_average
       [Double.of_Z 1; Double.of_Z 1; Double.of_Z 9007199254740992] 3
  /\ Double.eqb (S754_finite false 6004799503160661 (-1))
                (S754_finite false 6004799503160663 (-1)) = false
  /\ MyLib.calculate_average [Double.nan] 1 = Some Double.nan
  /\ Double.eqb Double.nan Double.nan = false.
Proof.
  split.
  { apply (Permutation_cons_append [Double.of_Z 1; Double.of_Z 1]). }
  repeat split. vm_compute. discriminate.
Qed.

(** [create(42)] on an empty free store that grants one allocation, then
    [getValue] on the handle. *)
Lemma create_getValue_witness :
  MyCppClass_create 42 {| heap := ∅; quota := 1 |}
  = Ret 1%N {| heap := {[ 1%N := NewObj (MyCppClass.construct 42) ]}; quota := 0 |}
  /\ 1%N <> nullptr
  /\ MyCppClass_getValue 1%N
       {| heap := {[ 1%N := NewObj (MyCppClass.construct 42) ]}; quota := 0 |}
     = Ret 42 {| heap := {[ 1%N := NewObj (MyCppClass.construct 42) ]}; quota := 0 |}
  /\ quota {| heap := ∅; quota := 1 |} <> O
  /\ (exists h m', MyCppClass_create 42 {| heap := ∅; quota := 1 |} = Ret h m'
                   /\ h <> nullptr).
Proof.
  assert (Hc : MyCppClass_create 42 {| heap := ∅; quota := 1 |}
               = Ret 1%N {| heap := {[ 1%N := NewObj (MyCppClass.construct 42) ]};
                            quota := 0 |}) by (vm_compute; reflexivity).
  assert (Hn : 1%N <> nullptr) by discriminate.
  assert (Hq : quota {| heap := ∅; quota := 1 |} <> O) by discriminate.
  destruct (create_getValue 42) as (_ & Hget & Hex).
  split; [exact Hc | split; [exact Hn |]].
  split; [exact (Hget _ _ _ Hc Hn) | split; [exact Hq | exact (Hex _ Hq)]].
Defined.

(** Three increments of an object holding [5]. *)
Lemma increment_n_adds_witness :
  CInt.in_range (MyCppClass.value_ (MyCppClass.construct 5))
  /\ MyCppClass.value_ (MyCppClass.construct 5) + Z.of_nat 3 <= CInt.INT_MAX
  /\ MyCppClass.getValue (MyCppClass.increment_n 3 (MyCppClass.construct 5))
     = MyCppClass.getValue (MyCppClass.construct 5) + Z.of_nat 3.
Proof.
  assert (Hr : CInt.in_range (MyCppClass.value_ (MyCppClass.construct 5)))
    by (split; discriminate).
  assert (Hn : MyCppClass.value_ (MyCppClass.construct 5) + Z.of_nat 3 <= CInt.INT_MAX)
    by discriminate.
  split; [exact Hr | split; [exact Hn |]].
  exact (increment_n_adds (MyCppClass.construct 5) 3 Hr Hn).
Defined.

(** [3 + 4] through [add_numbers]. *)
Lemma add_numbers_spec_witness :
  CInt.in_range 3 /\ CInt.in_range 4 /\ CInt.in_range (3 + 4)
  /\ MyLib.add_numbers 3 4 = 3 + 4
  /\ MyLib.add_numbers 3 4 = MyLib.add_numbers 4 3
  /\ MyLib.add_numbers 3 0 = 3.
Proof.
  assert (H3 : CInt.in_range 3) by (split; discriminate).
  assert (H4 : CInt.in_range 4) by (split; discriminate).
  assert (H7 : CInt.in_range (3 + 4)) by (split; discriminate).
  destruct (add_numbers_spec 3 4 H3 H4) as (_ & Hsum & _ & Hcomm & Hid).
  split; [exact H3 | split; [exact H4 | split; [exact H7 |]]].
  split; [exact (Hsum H7) | split; [exact Hcomm | exact Hid]].
Defined.

(** The sums of [[3.0]] and of [[1.0] ++ [3.0]]. *)
Lemma calculateSum_left_fold_witness :
  Double.is_nan (Double.of_Z 3) = false
  /\ Double.of_Z 3 <> Double.neg_zero
  /\ Double.eqb (MyCppClass.calculateSum [Double.of_Z 3] (MyCppClass.construct 0))
                (Double.of_Z 3) = true
  /\ MyCppClass.calculateSum [Double.of_Z 3] (MyCppClass.construct 0) = Double.of_Z 3
  /\ MyCppClass.calculateSum ([Double.of_Z 1] ++ [Double.of_Z 3]) (MyCppClass.construct 0)
     = Double.add
         (MyCppClass.calculateSum [Double.of_Z 1] (MyCppClass.construct 0))
         (MyCppClass.calculateSum [Double.of_Z 3] (MyCppClass.construct 0)).
Proof.
  assert (Hn : Double.is_nan (Double.of_Z 3) = false) by reflexivity.
  assert (Hz : Double.of_Z 3 <> Double.neg_zero) by (vm_compute; discriminate).
  destruct (calculateSum_left_fold (MyCppClass.construct 0) (Double.of_Z 3)
              [Double.of_Z 1] [Double.of_Z 2]) as (_ & Heq & Hsame & _ & Hadd).
  split; [exact Hn | split; [exact Hz |]].
  split; [exact (Heq Hn) | split; [exact (Hsame Hz) | exact (Hadd Hz)]].
Defined.

(** The averages of [[3.0]] and of [[1.0; 2.0]] against [[2.0; 1.0]]. *)
Lemma calculate_average_spec_witness :
  Double.valid (Double.of_Z 3) = true
  /\ Double.is_nan (Double.of_Z 3) = false
  /\ Double.of_Z 3 <> Double.neg_zero
  /\ Permutation [Double.of_Z 1; Double.of_Z 2] [Double.of_Z 2; Double.of_Z 1]
  /\ 2%N = N.of_nat (length [Double.of_Z 1; Double.of_Z 2])
  /\ (2 <= 2)%N
  /\ (exists r, MyLib.calculate_average [Double.of_Z 3] 1 = Some r
                /\ Double.eqb r (Double.of_Z 3) = true)
  /\ MyLib.calculate_average [Double.of_Z 3] 1 = Some (Double.of_Z 3)
  /\ MyLib.calculate_average [Double.of_Z 1; Double.of_Z 2] 2
     = MyLib.calculate_average [Double.of_Z 2; Double.of_Z 1] 2.
Proof.
  assert (Hv : Double.valid (Double.of_Z 3) = true) by reflexivity.
  assert (Hn : Double.is_nan (Double.of_Z 3) = false) by reflexivity.
  assert (Hz : Double.of_Z 3 <> Double.neg_zero) by (vm_compute; discriminate).
  assert (Hp : Permutation [Double.of_Z 1; Double.of_Z 2] [Double.of_Z 2; Double.of_Z 1])
    by apply perm_swap.
  assert (Hl : 2%N = N.of_nat (length [Double.of_Z 1; Double.of_Z 2])) by reflexivity.
  assert (Hc : (2 <= 2)%N) by discriminate.
  destruct (calculate_average_spec [Double.of_Z 1; Double.of_Z 2]
              [Double.of_Z 2; Double.of_Z 1] (Double.of_Z 3) 2)
    as (_ & Heq & Hsame & Hperm).
  split; [exact Hv | split; [exact Hn | split; [exact Hz | split; [exact Hp |]]]].
  split; [exact Hl | split; [exact Hc |]].
  split; [exact (Heq Hv Hn) | split; [exact (Hsame Hv Hz) | exact (Hperm Hp Hl Hc)]].
Defined.

(** [getMessage] on a live object when no allocation is left, so that
    [malloc] fails, returns null, and
    [freeString] on that null leaves memory as it is. *)
Lemma freeString_null_witness :
  MyCppClass_getMessage 1%N
    {| heap := {[ 1%N := NewObj (MyCppClass.construct 7) ]}; quota := 0 |}
  = Ret nullptr {| heap := {[ 1%N := NewObj (MyCppClass.construct 7) ]}; quota := 0 |}
  /\ MyCppClass_freeString nullptr
       {| heap := {[ 1%N := NewObj (MyCppClass.construct 7) ]}; quota := 0 |}
     = Ret tt {| heap := {[ 1%N := NewObj (MyCppClass.construct 7) ]}; quota := 0 |}.
Proof.
  assert (Hg : MyCppClass_getMessage 1%N
                 {| heap := {[ 1%N := NewObj (MyCppClass.construct 7) ]}; quota := 0 |}
               = Ret nullptr
                   {| heap := {[ 1%N := NewObj (MyCppClass.construct 7) ]}; quota := 0 |})
    by (vm_compute; reflexivity).
  split; [exact Hg |].
  exact (proj2 (freeString_null _) 1%N nullptr _ Hg eq_refl).
Defined.

(** * Further properties of the bridge *)

(** ** The free store *)

Lemma mem_eta m : {| heap := heap m; quota := quota m |} = m.
Proof. now destruct m. Qed.

Lemma fresh_ptr_nonnull m : fresh_ptr m <> nullptr.
Proof.
  intros E. unfold fresh_ptr in E.
  match type of E with fresh ?X = _ => pose proof (is_fresh X) as Hf end.
  rewrite E in Hf. set_solver.
Qed.

Lemma fresh_ptr_unused m : heap m !! fresh_ptr m = None.
Proof.
  apply not_elem_of_dom. unfold fresh_ptr.
  match goal with |- fresh ?X ∉ _ => pose proof (is_fresh X) as Hf end.
  set_solver.
Qed.

(** The address handed out depends on the blocks in use only. *)
Lemma fresh_ptr_heap h q q' :
  fresh_ptr {| heap := h; quota := q |} = fresh_ptr {| heap := h; quota := q' |}.
Proof. reflexivity. Qed.

Lemma try_catch_ret_no_throw {A} (body : cxx A) (a : A) m m' :
  try_catch body (ret a) m <> Throw m'.
Proof. unfold try_catch, ret. destruct (body m); discriminate. Qed.

(** X1. No bridge function lets a C++ exception cross the boundary:
    whatever the arguments and the state of memory, the outcome of a call
    is never a propagating exception. *)
Theorem bridge_never_throws (m m' : memory) (v : Z) (obj p : ptr) (count : N) :
  MyCppClass_create v m <> Throw m'
  /\ MyCppClass_destroy obj m <> Throw m'
  /\ MyCppClass_getValue obj m <> Throw m'
  /\ MyCppClass_setValue obj v m <> Throw m'
  /\ MyCppClass_increment obj m <> Throw m'
  /\ MyCppClass_getMessage obj m <> Throw m'
  /\ MyCppClass_setMessage obj p m <> Throw m'
  /\ MyCppClass_freeString p m <> Throw m'
  /\ MyCppClass_calculateSum obj p count m <> Throw m'.
Proof.
  repeat apply conj.
  - apply try_catch_ret_no_throw.
  - unfold MyCppClass_destroy, operator_delete, ret.
    destruct (is_null obj); cbn [negb]; [discriminate |].
    destruct (heap m !! obj) as [[] |]; discriminate.
  - unfold MyCppClass_getValue. destruct (is_null obj);
      [discriminate | apply try_catch_ret_no_throw].
  - unfold MyCppClass_setValue. destruct (is_null obj);
      [discriminate | apply try_catch_ret_no_throw].
  - unfold MyCppClass_increment. destruct (is_null obj);
      [discriminate | apply try_catch_ret_no_throw].
  - unfold MyCppClass_getMessage. destruct (is_null obj);
      [discriminate | apply try_catch_ret_no_throw].
  - unfold MyCppClass_setMessage. destruct (is_null obj || is_null p);
      [discriminate | apply try_catch_ret_no_throw].
  - unfold MyCppClass_freeString, free.
    destruct (is_null p); [discriminate |].
    destruct (heap m !! p) as [[] |]; discriminate.
  - unfold MyCppClass_calculateSum. destruct (is_null obj || is_null p);
      [discriminate | apply try_catch_ret_no_throw].
Qed.

(** What [MyCppClass_create] does to memory. *)
Lemma create_run v m :
  MyCppClass_create v m
  = match quota m with
    | O => Ret nullptr m
    | S q => Ret (fresh_ptr m)
               {| heap := <[ fresh_ptr m := NewObj (MyCppClass.construct v) ]> (heap m);
                  quota := q |}
    end.
Proof.
  unfold MyCppClass_create, try_catch, bind, operator_new, alloc, ret.
  now destruct (quota m).
Qed.

(** X2. Creating an object and destroying the handle obtained leaves
    memory exactly as it was, also when the allocation fails and the
    handle is null. *)
Theorem create_destroy_restores (v : Z) (m : memory) :
  (do h <- MyCppClass_create v; MyCppClass_destroy h) m = Ret tt m.
Proof.
  unfold bind. rewrite create_run. destruct (quota m) as [| q] eqn:Hq.
  - reflexivity.
  - unfold MyCppClass_destroy. rewrite (is_null_false _ (fresh_ptr_nonnull m)).
    cbn [negb]. unfold operator_delete, release. cbn [heap quota].
    rewrite lookup_insert_eq, delete_insert_eq, delete_id
      by apply fresh_ptr_unused.
    rewrite <- Hq. now rewrite mem_eta.
Qed.

(** A successful [MyCppClass_create], read backwards. *)
Lemma create_inv v m h m' :
  MyCppClass_create v m = Ret h m' -> h <> nullptr ->
  heap m !! h = None
  /\ heap m' !! h = Some (NewObj (MyCppClass.construct v))
  /\ (forall p, p <> h -> heap m' !! p = heap m !! p)
  /\ quota m = S (quota m').
Proof.
  rewrite create_run. destruct (quota m) as [| q]; intros Hc Hh.
  - inversion Hc. congruence.
  - inversion Hc; subst. cbn [heap quota]. repeat split.
    + apply fresh_ptr_unused.
    + apply lookup_insert_eq.
    + intros p Hp. now apply lookup_insert_ne.
Qed.

(** X3. A successful [MyCppClass_create] returns an address that was not
    in use, puts the new object there, uses up one allocation and leaves
    every other block as it was; when no allocation is granted it returns
    null and leaves memory as it was. *)
Theorem create_fresh (v : Z) (m : memory) :
  (quota m = O -> MyCppClass_create v m = Ret nullptr m)
  /\ (forall h m',
        MyCppClass_create v m = Ret h m' -> h <> nullptr ->
        heap m !! h = None
        /\ heap m' !! h = Some (NewObj (MyCppClass.construct v))
        /\ (forall p, p <> h -> heap m' !! p = heap m !! p)
        /\ quota m = S (quota m')).
Proof.
  split.
  - intros Hq. rewrite create_run. now rewrite Hq.
  - intros h m'. apply create_inv.
Qed.

(** X4. Two objects created one after the other have different handles
    and keep their own values. *)
Theorem create_twice_independent (a b : Z) (m m1 m2 : memory) (h1 h2 : ptr) :
  MyCppClass_create a m = Ret h1 m1 -> h1 <> nullptr ->
  MyCppClass_create b m1 = Ret h2 m2 -> h2 <> nullptr ->
  h1 <> h2
  /\ MyCppClass_getValue h1 m2 = Ret a m2
  /\ MyCppClass_getValue h2 m2 = Ret b m2.
Proof.
  intros Hc1 Hn1 Hc2 Hn2.
  destruct (create_inv a m _ _ Hc1 Hn1) as (_ & Hl1 & _ & _).
  destruct (create_inv b m1 _ _ Hc2 Hn2) as (Hf2 & Hl2 & Hfr2 & _).
  assert (Hne : h1 <> h2) by congruence.
  split; [exact Hne | split].
  - apply (getValue_live m2 h1 (MyCppClass.construct a) Hn1).
    apply object_at_NewObj. rewrite Hfr2 by exact Hne. exact Hl1.
  - exact (getValue_live m2 h2 (MyCppClass.construct b) Hn2 (object_at_NewObj _ _ _ Hl2)).
Qed.

(** ** Text through the bridge *)

Lemma c_str_idem s : c_str (c_str s) = c_str s.
Proof.
  induction s as [| c s IH]; [reflexivity |].
  cbn [c_str]. destruct (Ascii.eqb c Ascii.zero) eqn:E; [reflexivity |].
  cbn [c_str]. now rewrite E, IH.
Qed.

Lemma fits_inline s : (String.length s <=? sso_capacity)%nat = negb (is_long s).
Proof. unfold is_long. now rewrite Nat.ltb_antisym, negb_involutive. Qed.

(** The [malloc] and [strcpy] of [MyCppClass_getMessage]. *)
Lemma copy_out_run msg m :
  (do result <- malloc (N.of_nat (String.length msg) + 1);
   if negb (is_null result)
   then (do _u <- strcpy result msg; ret result)
   else ret result) m
  = match quota m with
    | O => Ret nullptr m
    | S q => Ret (fresh_ptr m)
               {| heap := <[ fresh_ptr m := MallocStr (c_str msg) ]> (heap m); quota := q |}
    end.
Proof.
  unfold bind, malloc, alloc. destruct m as [h [| q]]; cbn [heap quota]; [reflexivity |].
  rewrite (is_null_false _ (fresh_ptr_nonnull {| heap := h; quota := S q |})).
  cbn [negb]. unfold strcpy, ret. cbn [heap quota].
  rewrite lookup_insert_eq. cbn [heap quota]. now rewrite insert_insert_eq.
Qed.

(** What [MyCppClass_getMessage] does on a live handle: it needs
    [getMessage_demand] allocations and keeps one. *)
Lemma getMessage_run m obj o :
  obj <> nullptr -> object_at m obj = Some o ->
  MyCppClass_getMessage obj m
  = if (getMessage_demand o <=? quota m)%nat
    then Ret (fresh_ptr m)
           {| heap := <[ fresh_ptr m := MallocStr (c_str (MyCppClass.getMessage o)) ]> (heap m);
              quota := pred (quota m) |}
    else Ret nullptr m.
Proof.
  intros Hnn Hobj. unfold MyCppClass_getMessage. rewrite (is_null_false _ Hnn).
  unfold try_catch, bind at 1. rewrite (load_obj_live m obj o Hobj).
  unfold getMessage_demand, with_string.
  destruct (is_long (MyCppClass.getMessage o)).
  - unfold scoped. destruct m as [h [| [| q]]]; cbn [heap quota]; [reflexivity | |].
    + now rewrite copy_out_run.
    + now rewrite copy_out_run.
  - rewrite copy_out_run. now destruct m as [h [| q]].
Qed.

Lemma getMessage_demand_pos o : (1 <= getMessage_demand o)%nat.
Proof. unfold getMessage_demand. destruct (is_long _); lia. Qed.

Lemma getMessage_demand_le o : (getMessage_demand o <= 2)%nat.
Proof. unfold getMessage_demand. destruct (is_long _); lia. Qed.



(** [MyCppClass_setMessage] once the handle and the string are checked. *)
Lemma setMessage_body m obj message t :
  obj <> nullptr -> message <> nullptr ->
  load_cstr message m = Ret t m ->
  MyCppClass_setMessage obj message m
  = try_catch (with_string t (assign_message obj t)) (ret tt) m.
Proof.
  intros Hnn Hmn Hmsg. unfold MyCppClass_setMessage.
  rewrite (is_null_false _ Hnn), (is_null_false _ Hmn). cbn [orb].
  unfold try_catch, bind. now rewrite Hmsg.
Qed.

Lemma load_cstr_c_str m p t : load_cstr p m = Ret t m -> c_str t = t.
Proof.
  unfold load_cstr. destruct (heap m !! p) as [[] |]; intros H; inversion H;
    apply c_str_idem.
Qed.

(** With two allocations at hand [MyCppClass_setMessage] succeeds on
    every live handle, keeping at most one of them. *)
Lemma setMessage_ok m obj message o t :
  obj <> nullptr -> message <> nullptr ->
  object_at m obj = Some o ->
  load_cstr message m = Ret t m ->
  (2 <= quota m)%nat ->
  exists m1,
    MyCppClass_setMessage obj message m = Ret tt m1
    /\ object_at m1 obj = Some (MyCppClass.setMessage t o)
    /\ (quota m <= S (quota m1))%nat.
Proof.
  intros Hnn Hmn Hobj Hmsg Hq.
  rewrite (setMessage_body m obj message t Hnn Hmn Hmsg).
  unfold try_catch, with_string, scoped, assign_message, ret, object_at.
  destruct m as [h [| [| q]]]; cbn [heap quota] in *; [lia | lia |].
  destruct (object_at_inv _ _ _ Hobj) as [H | [c H]]; cbn [heap] in H;
    destruct (is_long t); cbn [heap quota]; rewrite H;
    destruct (_ <=? _)%nat;
    (eexists; split; [reflexivity |]); cbn [heap quota];
    rewrite lookup_insert_eq; (split; [reflexivity | lia]).
Qed.

(** A short text goes into an object with an inline message without any
    allocation. *)
Lemma setMessage_short_inline m obj message o t :
  obj <> nullptr -> message <> nullptr ->
  heap m !! obj = Some (NewObj o) ->
  load_cstr message m = Ret t m ->
  is_long t = false ->
  MyCppClass_setMessage obj message m
  = Ret tt {| heap := <[ obj := NewObj (MyCppClass.setMessage t o) ]> (heap m);
              quota := quota m |}.
Proof.
  intros Hnn Hmn Hobj Hmsg Hl.
  rewrite (setMessage_body m obj message t Hnn Hmn Hmsg).
  unfold try_catch, with_string, assign_message. rewrite Hl, Hobj, fits_inline, Hl.
  reflexivity.
Qed.

(** A long text into an object with an inline message takes two
    allocations and keeps one. *)
Lemma setMessage_long_inline m obj message o t q :
  obj <> nullptr -> message <> nullptr ->
  heap m !! obj = Some (NewObj o) ->
  load_cstr message m = Ret t m ->
  is_long t = true ->
  quota m = S (S q) ->
  MyCppClass_setMessage obj message m
  = Ret tt {| heap := <[ obj := NewObjBuf (MyCppClass.setMessage t o)
                                  (grow sso_capacity (String.length t)) ]> (heap m);
              quota := S q |}.
Proof.
  intros Hnn Hmn Hobj Hmsg Hl Hq.
  rewrite (setMessage_body m obj message t Hnn Hmn Hmsg).
  unfold try_catch, with_string, scoped, assign_message. rewrite Hl, Hq.
  cbn [heap quota]. rewrite Hobj, fits_inline, Hl. reflexivity.
Qed.


(** X8. A text longer than [sso_capacity] needs an allocation for the
    [std::string] temporary and, when it does not fit the object's
    present buffer, another for [message_].  With no allocation left, or
    with one and an object whose message is stored inline,
    [MyCppClass_setMessage] returns normally and changes nothing: the
    exception is swallowed, the object keeps its old message and the
    caller is not told. *)
Theorem setMessage_exhausted_noop
    (m : memory) (obj message : ptr) (o : MyCppClass.t) (t : string) :
  obj <> nullptr -> message <> nullptr ->
  object_at m obj = Some o ->
  load_cstr message m = Ret t m ->
  is_long t = true ->
  quota m = O \/ (quota m = 1%nat /\ heap m !! obj = Some (NewObj o)) ->
  MyCppClass_setMessage obj message m = Ret tt m
  /\ (do _u <- MyCppClass_setMessage obj message; load_obj obj) m = Ret o m.
Proof.
  intros Hnn Hmn Hobj Hmsg Hl Hq.
  assert (Hs : MyCppClass_setMessage obj message m = Ret tt m).
  { rewrite (setMessage_body m obj message t Hnn Hmn Hmsg).
    unfold try_catch, with_string, scoped, assign_message, ret. rewrite Hl.
    destruct m as [h q]. cbn [heap quota] in *.
    destruct Hq as [-> | [-> Hin]]; [reflexivity |].
    cbn [heap quota]. now rewrite Hin, fits_inline, Hl. }
  split; [exact Hs |]. unfold bind. rewrite Hs. apply (load_obj_live m obj o Hobj).
Qed.

(** ** Handles and the rest of memory *)

(** What each mutator can have changed when it returns. *)

Lemma setValue_frame m m' obj v :
  MyCppClass_setValue obj v m = Ret tt m' -> untouched_but obj m m'.
Proof.
  intros H. unfold MyCppClass_setValue in H. destruct (is_null obj).
  { inversion H; subst. now split. }
  unfold try_catch, bind, load_obj, store_obj, ret in H.
  destruct (heap m !! obj) as [[] |] eqn:E; try discriminate;
    cbn [heap quota] in H; rewrite E in H; inversion H; subst;
    (split; [reflexivity |]); intros p Hp; cbn [heap]; now apply lookup_insert_ne.
Qed.

Lemma increment_frame m m' obj :
  MyCppClass_increment obj m = Ret tt m' -> untouched_but obj m m'.
Proof.
  intros H. unfold MyCppClass_increment in H. destruct (is_null obj).
  { inversion H; subst. now split. }
  unfold try_catch, bind, load_obj, store_obj, ret in H.
  destruct (heap m !! obj) as [[] |] eqn:E; try discriminate;
    cbn [heap quota] in H; rewrite E in H; inversion H; subst;
    (split; [reflexivity |]); intros p Hp; cbn [heap]; now apply lookup_insert_ne.
Qed.

(** [message_ = msg] keeps at most one allocation and writes at [p] only. *)
Lemma assign_message_frame p msg m m' :
  assign_message p msg m = Ret tt m' \/ assign_message p msg m = Throw m' ->
  (quota m' = quota m \/ quota m = S (quota m'))
  /\ forall a, a <> p -> heap m' !! a = heap m !! a.
Proof.
  unfold assign_message.
  destruct (heap m !! p) as [[] |]; try (intros [H | H]; discriminate);
    destruct (_ <=? _)%nat; try destruct (quota m) eqn:Eq;
    intros [H | H]; inversion H; subst; cbn [heap quota];
    (split; [lia |]); intros a Ha; try reflexivity; now apply lookup_insert_ne.
Qed.

Lemma setMessage_frame m m' obj message :
  MyCppClass_setMessage obj message m = Ret tt m' ->
  (quota m' = quota m \/ quota m = S (quota m'))
  /\ forall p, p <> obj -> heap m' !! p = heap m !! p.
Proof.
  intros H. unfold MyCppClass_setMessage in H.
  destruct (is_null obj || is_null message).
  { inversion H; subst. split; [now left | reflexivity]. }
  unfold try_catch, bind, load_cstr, ret in H.
  destruct m as [h q]. cbn [heap quota] in *.
  assert (G : forall t,
             match with_string t (assign_message obj t) {| heap := h; quota := q |} with
             | Ret a m0 => Ret a m0
             | Throw m0 => Ret tt m0
             | Undef => Undef
             end = Ret tt m' ->
             (quota m' = q \/ q = S (quota m'))
             /\ forall p, p <> obj -> heap m' !! p = h !! p).
  { clear H. intros t H. unfold with_string, scoped in H.
    destruct (is_long t).
    - destruct q as [| q]; cbn [heap quota] in H.
      { inversion H; subst. split; [now left | reflexivity]. }
      destruct (assign_message obj t {| heap := h; quota := q |}) as [[] m0 | m0 |] eqn:E;
        try discriminate; inversion H; subst; cbn [heap quota].
      + destruct (assign_message_frame obj t {| heap := h; quota := q |} m0 (or_introl E))
          as [Hq Hf].
        cbn [heap quota] in *. split; [lia | exact Hf].
      + destruct (assign_message_frame obj t {| heap := h; quota := q |} m0 (or_intror E))
          as [Hq Hf].
        cbn [heap quota] in *. split; [lia | exact Hf].
    - destruct (assign_message obj t {| heap := h; quota := q |}) as [[] m0 | m0 |] eqn:E;
        try discriminate; inversion H; subst.
      + destruct (assign_message_frame obj t {| heap := h; quota := q |} m' (or_introl E))
          as [Hq Hf].
        cbn [heap quota] in *. split; [lia | exact Hf].
      + destruct (assign_message_frame obj t {| heap := h; quota := q |} m' (or_intror E))
          as [Hq Hf].
        cbn [heap quota] in *. split; [lia | exact Hf]. }
  destruct (h !! message) as [[] |]; try discriminate; now apply G in H.
Qed.

(** X9. The mutators reach the object behind their handle only: whenever
    [MyCppClass_setValue], [MyCppClass_increment] or
    [MyCppClass_setMessage] returns, every block at another address is as
    it was.  [setValue] and [increment] leave the number of available
    allocations as it was; [setMessage] keeps at most one of them, for
    the buffer of a message that did not fit. *)
Theorem mutators_touch_own_object
    (m m' : memory) (obj message : ptr) (v : Z) :
  (MyCppClass_setValue obj v m = Ret tt m'
   \/ MyCppClass_increment obj m = Ret tt m' ->
   quota m' = quota m
   /\ forall p, p <> obj -> heap m' !! p = heap m !! p)
  /\ (MyCppClass_setMessage obj message m = Ret tt m' ->
      (quota m' = quota m \/ quota m = S (quota m'))
      /\ forall p, p <> obj -> heap m' !! p = heap m !! p).
Proof.
  split.
  - intros [H | H].
    + exact (setValue_frame _ _ _ _ H).
    + exact (increment_frame _ _ _ H).
  - exact (setMessage_frame _ _ _ _).
Qed.

(** X10. The accessors [MyCppClass_getValue] and
    [MyCppClass_calculateSum] never change memory: whenever they return,
    the state is the one they were called in. *)
Theorem accessors_leave_memory
    (m m' : memory) (obj values : ptr) (count : N) (r : Z) (d : double) :
  (MyCppClass_getValue obj m = Ret r m' -> m' = m)
  /\ (MyCppClass_calculateSum obj values count m = Ret d m' -> m' = m).
Proof.
  split; intros H.
  - unfold MyCppClass_getValue in H. destruct (is_null obj).
    { now inversion H. }
    unfold try_catch, bind, load_obj, ret in H.
    destruct (heap m !! obj) as [[] |]; try discriminate; now inversion H.
  - unfold MyCppClass_calculateSum in H. destruct (is_null obj || is_null values).
    { now inversion H. }
    unfold try_catch, bind, load_range, with_vector, scoped, load_obj, ret in H.
    destruct m as [h q]. cbn [heap quota] in *.
    destruct (h !! values) as [[] |]; try discriminate.
    destruct (count <=? N.of_nat (length a))%N; try discriminate.
    destruct (take (N.to_nat count) a).
    + cbn [heap quota] in H.
      destruct (h !! obj) as [[] |]; try discriminate; now inversion H.
    + destruct q as [| q]; [now inversion H |].
      cbn [heap quota] in H.
      destruct (h !! obj) as [[] |]; try discriminate; now inversion H.
Qed.

(** X11. Through a live handle, [MyCppClass_setValue(v)] followed by
    [MyCppClass_getValue] returns [v], and [MyCppClass_increment] followed
    by [MyCppClass_getValue] returns the old value plus one when that
    value is an [int] below [INT_MAX]. *)
Theorem bridge_write_then_read (m : memory) (obj : ptr) (o : MyCppClass.t) (v : Z) :
  obj <> nullptr -> object_at m obj = Some o ->
  (exists m', (do _u <- MyCppClass_setValue obj v; MyCppClass_getValue obj) m = Ret v m')
  /\ (CInt.in_range (MyCppClass.value_ o) -> MyCppClass.value_ o < CInt.INT_MAX ->
      exists m', (do _u <- MyCppClass_increment obj; MyCppClass_getValue obj) m
                 = Ret (MyCppClass.value_ o + 1) m').
Proof.
  intros Hnn Hobj. split.
  - destruct (setValue_live m obj o Hnn Hobj v) as (m' & Hs & Ho').
    exists m'. unfold bind. rewrite Hs.
    now rewrite (getValue_live m' obj _ Hnn Ho').
  - intros Hr Hlt. destruct (increment_live m obj o Hnn Hobj) as (m' & Hs & Ho').
    exists m'. unfold bind. rewrite Hs.
    rewrite (getValue_live m' obj _ Hnn Ho').
    now rewrite (increment_below_max o Hr Hlt).
Qed.

(** X12. [MyCppClass_destroy] on a live handle releases the object,
    together with the buffer its message owns when that is stored outside
    the object, and leaves every other block as it was; the handle is
    dangling afterwards: reading, writing or destroying through it again
    is undefined behaviour, which the bridge does not guard against. *)
Theorem destroy_then_dangling (m : memory) (obj : ptr) (o : MyCppClass.t) (v : Z) :
  obj <> nullptr -> object_at m obj = Some o ->
  exists m',
    MyCppClass_destroy obj m = Ret tt m'
    /\ (forall p, p <> obj -> heap m' !! p = heap m !! p)
    /\ (heap m !! obj = Some (NewObj o) -> quota m' = S (quota m))
    /\ (forall c, heap m !! obj = Some (NewObjBuf o c) -> quota m' = S (S (quota m)))
    /\ MyCppClass_getValue obj m' = Undef
    /\ MyCppClass_setValue obj v m' = Undef
    /\ MyCppClass_increment obj m' = Undef
    /\ MyCppClass_getMessage obj m' = Undef
    /\ MyCppClass_destroy obj m' = Undef.
Proof.
  intros Hnn Hobj.
  assert (Hdang : forall m', heap m' !! obj = None ->
            MyCppClass_getValue obj m' = Undef
            /\ MyCppClass_setValue obj v m' = Undef
            /\ MyCppClass_increment obj m' = Undef
            /\ MyCppClass_getMessage obj m' = Undef
            /\ MyCppClass_destroy obj m' = Undef).
  { intros m' Hgone.
    unfold MyCppClass_getValue, MyCppClass_setValue, MyCppClass_increment,
      MyCppClass_getMessage, MyCppClass_destroy.
    rewrite (is_null_false _ Hnn). cbn [negb].
    unfold try_catch, bind, load_obj, operator_delete. rewrite Hgone.
    repeat split. }
  assert (Hrun : MyCppClass_destroy obj m = operator_delete obj m).
  { unfold MyCppClass_destroy. now rewrite (is_null_false _ Hnn). }
  rewrite Hrun. unfold operator_delete.
  destruct (object_at_inv _ _ _ Hobj) as [H | [c H]]; rewrite H;
    (eexists; split; [reflexivity |]); unfold release; cbn [heap quota];
    (split; [intros p Hp; now apply lookup_delete_ne |]);
    (split; [intros E; now inversion E |]);
    (split; [intros c' E; now inversion E |]);
    apply Hdang; cbn [heap]; apply lookup_delete_eq.
Qed.


(** ** Sums and averages *)

Lemma add_nan_r x : Double.add x Double.nan = Double.nan.
Proof. destruct x as [[] | [] | | s m e]; reflexivity. Qed.

Lemma fold_add_nan l : fold_left Double.add l Double.nan = Double.nan.
Proof. induction l as [| x l IH]; [reflexivity | exact IH]. Qed.

Lemma fold_add_In_nan l acc :
  In Double.nan l -> fold_left Double.add l acc = Double.nan.
Proof.
  revert acc. induction l as [| x l IH]; intros acc Hin; [destruct Hin |].
  cbn [fold_left]. destruct Hin as [Hx | Hl].
  - subst x. rewrite add_nan_r. apply fold_add_nan.
  - now apply IH.
Qed.

Lemma sum_loop_segment pre l rest sum :
  MyLib.sum_loop (pre ++ l ++ rest) (length pre) (length l) sum
  = Some (fold_left Double.add l sum).
Proof.
  revert pre sum. induction l as [| v l IH]; intros pre sum; [reflexivity |].
  cbn [MyLib.sum_loop length fold_left].
  change ((v :: l) ++ rest) with (v :: (l ++ rest)).
  rewrite list_lookup_middle by reflexivity.
  replace (pre ++ v :: l ++ rest) with ((pre ++ [v]) ++ l ++ rest)
    by now rewrite <- app_assoc.
  replace (S (length pre)) with (length (pre ++ [v]))
    by (rewrite length_app; cbn; lia).
  apply IH.
Qed.

(** X14. For [0 < count <= length], [calculate_average] is the
    left-to-right sum of the first [count] elements, the one
    [MyCppClass::calculateSum] computes, divided by [(double)count];
    whatever follows those elements in the array is not read. *)
Theorem calculate_average_prefix
    (values extra : list double) (count : N) (o : MyCppClass.t) :
  count <> 0%N -> (count <= N.of_nat (length values))%N ->
  MyLib.calculate_average values count
  = Some (Double.div (MyCppClass.calculateSum (take (N.to_nat count) values) o)
                     (Double.of_Z (Z.of_N count)))
  /\ MyLib.calculate_average (take (N.to_nat count) values ++ extra) count
     = MyLib.calculate_average values count.
Proof.
  intros Hc Hle.
  assert (Hlen : length (take (N.to_nat count) values) = N.to_nat count)
    by (rewrite length_take; lia).
  assert (G : forall rest,
             MyLib.calculate_average (take (N.to_nat count) values ++ rest) count
             = Some (Double.div
                       (MyCppClass.calculateSum (take (N.to_nat count) values) o)
                       (Double.of_Z (Z.of_N count)))).
  { intros rest. unfold MyLib.calculate_average.
    destruct (N.eqb_spec count 0); [contradiction |].
    rewrite <- Hlen at 2.
    now rewrite (sum_loop_segment [] (take (N.to_nat count) values) rest). }
  split.
  - rewrite <- (take_drop (N.to_nat count) values) at 1. apply G.
  - rewrite G. rewrite <- (take_drop (N.to_nat count) values) at 2.
    now rewrite G.
Qed.

(** X15. One NaN among the values makes the results NaN: [calculateSum]
    returns NaN, and so does [calculate_average] over the whole array. *)
Theorem nan_propagates (values : list double) (o : MyCppClass.t) :
  In Double.nan values ->
  MyCppClass.calculateSum values o = Double.nan
  /\ MyLib.calculate_average values (N.of_nat (length values)) = Some Double.nan.
Proof.
  intros Hin. split.
  - unfold MyCppClass.calculateSum. now apply fold_add_In_nan.
  - rewrite calculate_average_full; [| reflexivity |].
    + now rewrite fold_add_In_nan.
    + destruct values; [destruct Hin | discriminate].
Qed.

(** X16. The sum of at most two values does not depend on their order,
    signed zeros, infinities and NaN included. *)
Theorem calculateSum_pair_order (values values' : list double) (o : MyCppClass.t) :
  Permutation values values' -> (length values <= 2)%nat ->
  MyCppClass.calculateSum values o = MyCppClass.calculateSum values' o.
Proof.
  intros Hp Hlen. destruct values as [| a [| b [| c l]]].
  - apply Permutation_nil in Hp. now subst.
  - apply Permutation_length_1_inv in Hp. now subst.
  - apply Permutation_length_2_inv in Hp. destruct Hp as [-> | ->].
    + reflexivity.
    + unfold MyCppClass.calculateSum. cbn [fold_left]. apply add_pair_swap.
  - cbn [length] in Hlen. lia.
Qed.

(** ** [add_numbers] once more *)

(** X20. [add_numbers] is associative: the 32-bit result of adding three
    numbers does not depend on which pair is added first, overflow of an
    intermediate sum included. *)
Theorem add_numbers_assoc (a b c : Z) :
  MyLib.add_numbers (MyLib.add_numbers a b) c
  = MyLib.add_numbers a (MyLib.add_numbers b c).
Proof.
  unfold MyLib.add_numbers, CInt.add.
  rewrite wrap_add_l.
  rewrite (Z.add_comm a (CInt.wrap (b + c))), wrap_add_l.
  f_equal. lia.
Qed.

(** * Concrete runs of the further properties *)

Lemma create_fresh_witness :
  quota (Sample.empty 0) = O
  /\ MyCppClass_create 5 (Sample.empty 0) = Ret nullptr (Sample.empty 0)
  /\ MyCppClass_create 5 (Sample.store 2)
     = Ret 4%N {| heap := <[ 4%N := NewObj (MyCppClass.construct 5) ]> (heap (Sample.store 2));
                  quota := 1 |}
  /\ 4%N <> nullptr
  /\ heap (Sample.store 2) !! 4%N = None
  /\ quota (Sample.store 2) = 2%nat.
Proof.
  assert (Hq : quota (Sample.empty 0) = O) by reflexivity.
  assert (Hc : MyCppClass_create 5 (Sample.store 2)
               = Ret 4%N {| heap := <[ 4%N := NewObj (MyCppClass.construct 5) ]>
                                      (heap (Sample.store 2));
                            quota := 1 |}) by (vm_compute; reflexivity).
  assert (Hn : 4%N <> nullptr) by discriminate.
  destruct (proj2 (create_fresh 5 (Sample.store 2)) _ _ Hc Hn) as (Hf & _ & _ & Hquota).
  split; [exact Hq | split; [exact (proj1 (create_fresh 5 (Sample.empty 0)) Hq) |]].
  split; [exact Hc | split; [exact Hn | split; [exact Hf | exact Hquota]]].
Defined.

Lemma create_twice_independent_witness :
  MyCppClass_create 5 (Sample.empty 2)
  = Ret 1%N {| heap := {[ 1%N := NewObj (MyCppClass.construct 5) ]}; quota := 1 |}
  /\ 1%N <> nullptr
  /\ MyCppClass_create 6 {| heap := {[ 1%N := NewObj (MyCppClass.construct 5) ]}; quota := 1 |}
     = Ret 2%N {| heap := {[ 1%N := NewObj (MyCppClass.construct 5);
                             2%N := NewObj (MyCppClass.construct 6) ]}; quota := 0 |}
  /\ 2%N <> nullptr
  /\ 1%N <> 2%N
  /\ MyCppClass_getValue 1%N
       {| heap := {[ 1%N := NewObj (MyCppClass.construct 5);
                     2%N := NewObj (MyCppClass.construct 6) ]}; quota := 0 |}
     = Ret 5 {| heap := {[ 1%N := NewObj (MyCppClass.construct 5);
                           2%N := NewObj (MyCppClass.construct 6) ]}; quota := 0 |}
  /\ MyCppClass_getValue 2%N
       {| heap := {[ 1%N := NewObj (MyCppClass.construct 5);
                     2%N := NewObj (MyCppClass.construct 6) ]}; quota := 0 |}
     = Ret 6 {| heap := {[ 1%N := NewObj (MyCppClass.construct 5);
                           2%N := NewObj (MyCppClass.construct 6) ]}; quota := 0 |}.
Proof.
  assert (H1 : MyCppClass_create 5 (Sample.empty 2)
               = Ret 1%N {| heap := {[ 1%N := NewObj (MyCppClass.construct 5) ]};
                            quota := 1 |}) by (vm_compute; reflexivity).
  assert (N1 : 1%N <> nullptr) by discriminate.
  assert (H2 : MyCppClass_create 6
                 {| heap := {[ 1%N := NewObj (MyCppClass.construct 5) ]}; quota := 1 |}
               = Ret 2%N {| heap := {[ 1%N := NewObj (MyCppClass.construct 5);
                                       2%N := NewObj (MyCppClass.construct 6) ]};
                            quota := 0 |}) by (vm_compute; reflexivity).
  assert (N2 : 2%N <> nullptr) by discriminate.
  split; [exact H1 | split; [exact N1 | split; [exact H2 | split; [exact N2 |]]]].
  exact (create_twice_independent 5 6 _ _ _ _ _ H1 N1 H2 N2).
Defined.




(** A long text with no allocation left, and with one. *)
Lemma setMessage_exhausted_noop_witness :
  1%N <> nullptr /\ 2%N <> nullptr
  /\ object_at (Sample.long_store 0) 1%N = Some (MyCppClass.construct 7)
  /\ load_cstr 2%N (Sample.long_store 0) = Ret Sample.long_text (Sample.long_store 0)
  /\ is_long Sample.long_text = true
  /\ quota (Sample.long_store 0) = O
  /\ MyCppClass_setMessage 1%N 2%N (Sample.long_store 0) = Ret tt (Sample.long_store 0)
  /\ (do _u <- MyCppClass_setMessage 1%N 2%N; load_obj 1%N) (Sample.long_store 0)
     = Ret (MyCppClass.construct 7) (Sample.long_store 0)
  /\ quota (Sample.long_store 1) = 1%nat
  /\ heap (Sample.long_store 1) !! 1%N = Some (NewObj (MyCppClass.construct 7))
  /\ MyCppClass_setMessage 1%N 2%N (Sample.long_store 1) = Ret tt (Sample.long_store 1).
Proof.
  assert (N1 : 1%N <> nullptr) by discriminate.
  assert (N2 : 2%N <> nullptr) by discriminate.
  assert (Ho : object_at (Sample.long_store 0) 1%N = Some (MyCppClass.construct 7))
    by reflexivity.
  assert (Hs : load_cstr 2%N (Sample.long_store 0)
               = Ret Sample.long_text (Sample.long_store 0)) by reflexivity.
  assert (L : is_long Sample.long_text = true) by reflexivity.
  assert (Q0 : quota (Sample.long_store 0) = O) by reflexivity.
  assert (Q1 : quota (Sample.long_store 1) = 1%nat) by reflexivity.
  assert (Hi : heap (Sample.long_store 1) !! 1%N = Some (NewObj (MyCppClass.construct 7)))
    by reflexivity.
  assert (Hs' : load_cstr 2%N (Sample.long_store 1)
                = Ret Sample.long_text (Sample.long_store 1)) by reflexivity.
  destruct (setMessage_exhausted_noop (Sample.long_store 0) 1%N 2%N _ Sample.long_text
              N1 N2 Ho Hs L (or_introl Q0)) as [R0 R0'].
  destruct (setMessage_exhausted_noop (Sample.long_store 1) 1%N 2%N _ Sample.long_text
              N1 N2 (object_at_NewObj _ _ _ Hi) Hs' L (or_intror (conj Q1 Hi))) as [R1 _].
  split; [exact N1 | split; [exact N2 | split; [exact Ho | split; [exact Hs |]]]].
  split; [exact L | split; [exact Q0 | split; [exact R0 | split; [exact R0' |]]]].
  split; [exact Q1 | split; [exact Hi | exact R1]].
Defined.

(** [setValue] on the sample object, and [setMessage] with a long text
    that keeps one allocation. *)
Lemma mutators_touch_own_object_witness :
  MyCppClass_setValue 1%N 9 (Sample.store 2)
  = Ret tt {| heap := <[ 1%N := NewObj (MyCppClass.setValue 9 (MyCppClass.construct 7)) ]>
                        (heap (Sample.store 2));
              quota := 2 |}
  /\ heap {| heap := <[ 1%N := NewObj (MyCppClass.setValue 9 (MyCppClass.construct 7)) ]>
                       (heap (Sample.store 2));
             quota := 2 |} !! 2%N
     = heap (Sample.store 2) !! 2%N
  /\ MyCppClass_setMessage 1%N 2%N (Sample.long_store 2)
     = Ret tt {| heap := <[ 1%N := NewObjBuf (MyCppClass.setMessage Sample.long_text
                                                (MyCppClass.construct 7)) 36 ]>
                           (heap (Sample.long_store 2));
                 quota := 1 |}
  /\ (1 = quota (Sample.long_store 2) \/ quota (Sample.long_store 2) = 2)%nat
  /\ heap {| heap := <[ 1%N := NewObjBuf (MyCppClass.setMessage Sample.long_text
                                            (MyCppClass.construct 7)) 36 ]>
                       (heap (Sample.long_store 2));
             quota := 1 |} !! 2%N
     = heap (Sample.long_store 2) !! 2%N.
Proof.
  assert (Hs : MyCppClass_setValue 1%N 9 (Sample.store 2)
               = Ret tt {| heap := <[ 1%N := NewObj (MyCppClass.setValue 9
                                                      (MyCppClass.construct 7)) ]>
                                     (heap (Sample.store 2));
                           quota := 2 |}) by (vm_compute; reflexivity).
  assert (Hm : MyCppClass_setMessage 1%N 2%N (Sample.long_store 2)
               = Ret tt {| heap := <[ 1%N := NewObjBuf (MyCppClass.setMessage Sample.long_text
                                                          (MyCppClass.construct 7)) 36 ]>
                                     (heap (Sample.long_store 2));
                           quota := 1 |}) by (vm_compute; reflexivity).
  assert (Hne : 2%N <> 1%N) by discriminate.
  destruct (proj1 (mutators_touch_own_object _ _ 1%N 2%N 9) (or_introl Hs)) as [_ F1].
  destruct (proj2 (mutators_touch_own_object _ _ 1%N 2%N 9) Hm) as [Q2 F2].
  split; [exact Hs | split; [exact (F1 2%N Hne) | split; [exact Hm |]]].
  split; [exact Q2 | exact (F2 2%N Hne)].
Defined.

Lemma accessors_leave_memory_witness :
  MyCppClass_getValue 1%N (Sample.store 2) = Ret 7 (Sample.store 2)
  /\ MyCppClass_calculateSum 1%N 3%N 2 (Sample.store 2)
     = Ret (Double.of_Z 3) (Sample.store 2)
  /\ Sample.store 2 = Sample.store 2.
Proof.
  pose proof (accessors_leave_memory (Sample.store 2) (Sample.store 2)
                1%N 3%N 2 7 (Double.of_Z 3)) as [Pure_get Pure_sum].
  assert (Hg : MyCppClass_getValue 1%N (Sample.store 2) = Ret 7 (Sample.store 2))
    by (vm_compute; reflexivity).
  assert (Hc : MyCppClass_calculateSum 1%N 3%N 2 (Sample.store 2)
               = Ret (Double.of_Z 3) (Sample.store 2)) by (vm_compute; reflexivity).
  split; [exact Hg | split; [exact Hc |]].
  exact (eq_trans (Pure_get Hg) (eq_sym (Pure_sum Hc))).
Defined.

Lemma bridge_write_then_read_witness :
  1%N <> nullptr
  /\ object_at (Sample.store 2) 1%N = Some (MyCppClass.construct 7)
  /\ CInt.in_range (MyCppClass.value_ (MyCppClass.construct 7))
  /\ MyCppClass.value_ (MyCppClass.construct 7) < CInt.INT_MAX
  /\ (exists m', (do _u <- MyCppClass_setValue 1%N 9; MyCppClass_getValue 1%N)
                   (Sample.store 2) = Ret 9 m')
  /\ (exists m', (do _u <- MyCppClass_increment 1%N; MyCppClass_getValue 1%N)
                   (Sample.store 2)
                 = Ret (MyCppClass.value_ (MyCppClass.construct 7) + 1) m').
Proof.
  assert (Hn : 1%N <> nullptr) by discriminate.
  assert (Ho : object_at (Sample.store 2) 1%N = Some (MyCppClass.construct 7))
    by reflexivity.
  assert (Hr : CInt.in_range (MyCppClass.value_ (MyCppClass.construct 7)))
    by (split; discriminate).
  assert (Hl : MyCppClass.value_ (MyCppClass.construct 7) < CInt.INT_MAX) by reflexivity.
  destruct (bridge_write_then_read (Sample.store 2) 1%N _ 9 Hn Ho) as [Hset Hinc].
  split; [exact Hn | split; [exact Ho | split; [exact Hr | split; [exact Hl |]]]].
  split; [exact Hset | exact (Hinc Hr Hl)].
Defined.

(** Destroying an object with an inline message, and one whose message
    owns a buffer. *)
Lemma destroy_then_dangling_witness :
  1%N <> nullptr
  /\ heap (Sample.store 2) !! 1%N = Some (NewObj (MyCppClass.construct 7))
  /\ heap (Sample.buffered_store 0) !! 1%N
     = Some (NewObjBuf (MyCppClass.setMessage Sample.long_text (MyCppClass.construct 7)) 36)
  /\ (exists m',
        MyCppClass_destroy 1%N (Sample.store 2) = Ret tt m'
        /\ quota m' = S (quota (Sample.store 2))
        /\ MyCppClass_getValue 1%N m' = Undef
        /\ MyCppClass_destroy 1%N m' = Undef)
  /\ (exists m',
        MyCppClass_destroy 1%N (Sample.buffered_store 0) = Ret tt m'
        /\ quota m' = S (S (quota (Sample.buffered_store 0)))
        /\ MyCppClass_getValue 1%N m' = Undef
        /\ MyCppClass_destroy 1%N m' = Undef).
Proof.
  assert (Hn : 1%N <> nullptr) by discriminate.
  assert (H1 : heap (Sample.store 2) !! 1%N = Some (NewObj (MyCppClass.construct 7)))
    by reflexivity.
  assert (H2 : heap (Sample.buffered_store 0) !! 1%N
               = Some (NewObjBuf (MyCppClass.setMessage Sample.long_text
                                    (MyCppClass.construct 7)) 36)) by reflexivity.
  assert (O2 : object_at (Sample.buffered_store 0) 1%N
               = Some (MyCppClass.setMessage Sample.long_text (MyCppClass.construct 7)))
    by reflexivity.
  destruct (destroy_then_dangling (Sample.store 2) 1%N _ 9 Hn (object_at_NewObj _ _ _ H1))
    as (m1 & D1 & _ & Q1 & _ & G1 & _ & _ & _ & DD1).
  destruct (destroy_then_dangling (Sample.buffered_store 0) 1%N _ 9 Hn O2)
    as (m2 & D2 & _ & _ & Q2 & G2 & _ & _ & _ & DD2).
  split; [exact Hn | split; [exact H1 | split; [exact H2 | split]]].
  - exists m1. split; [exact D1 | split; [exact (Q1 H1) | split; [exact G1 | exact DD1]]].
  - exists m2. split; [exact D2 | split; [exact (Q2 _ H2) | split; [exact G2 | exact DD2]]].
Defined.


Lemma calculate_average_prefix_witness :
  2%N <> 0%N
  /\ (2 <= N.of_nat (length [Double.of_Z 1; Double.of_Z 2; Double.of_Z 3]))%N
  /\ MyLib.calculate_average [Double.of_Z 1; Double.of_Z 2; Double.of_Z 3] 2
     = Some (Double.div
               (MyCppClass.calculateSum
                  (take (N.to_nat 2) [Double.of_Z 1; Double.of_Z 2; Double.of_Z 3])
                  (MyCppClass.construct 0))
               (Double.of_Z (Z.of_N 2)))
  /\ MyLib.calculate_average
       (take (N.to_nat 2) [Double.of_Z 1; Double.of_Z 2; Double.of_Z 3]
        ++ [Double.nan]) 2
     = MyLib.calculate_average [Double.of_Z 1; Double.of_Z 2; Double.of_Z 3] 2.
Proof.
  assert (Hc : 2%N <> 0%N) by discriminate.
  assert (Hl : (2 <= N.of_nat (length [Double.of_Z 1; Double.of_Z 2; Double.of_Z 3]))%N)
    by discriminate.
  split; [exact Hc | split; [exact Hl |]].
  exact (calculate_average_prefix [Double.of_Z 1; Double.of_Z 2; Double.of_Z 3]
           [Double.nan] 2 (MyCppClass.construct 0) Hc Hl).
Defined.

Lemma nan_propagates_witness :
  In Double.nan [Double.of_Z 1; Double.nan; Double.of_Z 3]
  /\ MyCppClass.calculateSum [Double.of_Z 1; Double.nan; Double.of_Z 3]
       (MyCppClass.construct 0) = Double.nan
  /\ MyLib.calculate_average [Double.of_Z 1; Double.nan; Double.of_Z 3]
       (N.of_nat (length [Double.of_Z 1; Double.nan; Double.of_Z 3]))
     = Some Double.nan.
Proof.
  assert (Hin : In Double.nan [Double.of_Z 1; Double.nan; Double.of_Z 3])
    by (right; left; reflexivity).
  split; [exact Hin |].
  exact (nan_propagates _ (MyCppClass.construct 0) Hin).
Defined.

Lemma calculate_average_overrun_witness :
  (N.of_nat (length [Double.of_Z 1; Double.of_Z 2]) < 3)%N
  /\ MyLib.calculate_average [Double.of_Z 1; Double.of_Z 2] 3 = None.
Proof.
  assert (Hlt : (N.of_nat (length [Double.of_Z 1; Double.of_Z 2]) < 3)%N)
    by reflexivity.
  split; [exact Hlt | exact (calculate_average_overrun _ 3 Hlt)].
Defined.

Lemma MyCppClass_calculateSum_live_witness :
  1%N <> nullptr /\ 3%N <> nullptr
  /\ object_at (Sample.store 1) 1%N = Some (MyCppClass.construct 7)
  /\ heap (Sample.store 1) !! 3%N
     = Some (ForeignArr [Double.of_Z 1; Double.of_Z 2; Double.of_Z 3])
  /\ (2 <= N.of_nat (length [Double.of_Z 1; Double.of_Z 2; Double.of_Z 3]))%N
  /\ MyCppClass_calculateSum 1%N 3%N 2 (Sample.store 1)
     = Ret (if quota (Sample.store 1) is O then Double.zero
            else MyCppClass.calculateSum
                   (take (N.to_nat 2) [Double.of_Z 1; Double.of_Z 2; Double.of_Z 3])
                   (MyCppClass.construct 7))
         (Sample.store 1).
Proof.
  assert (N1 : 1%N <> nullptr) by discriminate.
  assert (N3 : 3%N <> nullptr) by discriminate.
  assert (Ho : object_at (Sample.store 1) 1%N = Some (MyCppClass.construct 7))
    by reflexivity.
  assert (Ha : heap (Sample.store 1) !! 3%N
               = Some (ForeignArr [Double.of_Z 1; Double.of_Z 2; Double.of_Z 3]))
    by reflexivity.
  assert (Hc : (2 <= N.of_nat (length [Double.of_Z 1; Double.of_Z 2; Double.of_Z 3]))%N)
    by discriminate.
  split; [exact N1 | split; [exact N3 | split; [exact Ho | split; [exact Ha |]]]].
  split; [exact Hc |].
  exact (MyCppClass_calculateSum_live (Sample.store 1) 1%N 3%N 2 _ _ N1 N3 Ho Ha Hc).
Defined.

Lemma calculateSum_pair_order_witness :
  Permutation [Double.of_Z 1; Double.neg_zero] [Double.neg_zero; Double.of_Z 1]
  /\ (length [Double.of_Z 1; Double.neg_zero] <= 2)%nat
  /\ MyCppClass.calculateSum [Double.of_Z 1; Double.neg_zero] (MyCppClass.construct 0)
     = MyCppClass.calculateSum [Double.neg_zero; Double.of_Z 1] (MyCppClass.construct 0).
Proof.
  assert (Hp : Permutation [Double.of_Z 1; Double.neg_zero]
                           [Double.neg_zero; Double.of_Z 1]) by apply perm_swap.
  assert (Hl : (length [Double.of_Z 1; Double.neg_zero] <= 2)%nat) by (cbn; lia).
  split; [exact Hp | split; [exact Hl |]].
  exact (calculateSum_pair_order _ _ (MyCppClass.construct 0) Hp Hl).
Defined.
